(** * TripAdvisor review crawler: extraction, cache and pagination engine

    A shallow embedding of the scraper (scraper/tripadvisorScraper.ts) and of
    its per-listing review cache (utils/reviewCache.ts).

    The browser is outside the program: every Playwright call is read from a
    snapshot of the page (an [Element] or a [Page] below), and a call that can
    reject is a [Fallible] value.  Logging and the random delays have no
    effect on any value computed here and are left out. *)

From Stdlib Require Import ZArith Ascii String List Bool Lia.
From stdpp Require Import base option list strings gmap pretty.

Set Warnings "-register-all,-clear-no-such-hyp".
Local Open Scope Z_scope.

(** ** JavaScript values and string primitives *)

Module Js.

(** What [throw] carries: an [Error] with its message, or any other value. *)
Inductive Thrown :=
| ErrorObj (message : string)
| NonError.

(** The outcome of a call that may throw (or of a promise that may reject). *)
Inductive Fallible (A : Type) :=
| Ok (a : A)
| Throw (e : Thrown).
Global Arguments Ok {A} a.
Global Arguments Throw {A} e.

Definition bind {A B} (m : Fallible A) (k : A -> Fallible B) : Fallible B :=
  match m with
  | Ok a => k a
  | Throw e => Throw e
  end.

Declare Scope fallible_scope.
Delimit Scope fallible_scope with fallible.

(** [const x = await m; k]: a rejection of [m] leaves the block. *)
Notation "'await' x <- m ; k" := (bind m (fun x => k))
  (at level 10, x name, m at level 100, k at level 200,
   format "'[v' 'await'  x  <-  m ; '/' k ']'") : fallible_scope.

(** [try { m } catch { d }] for a computation without other effects. *)
Definition catch {A} (m : Fallible A) (d : A) : A :=
  match m with
  | Ok a => a
  | Throw _ => d
  end.

Definition timeout : Thrown := ErrorObj "Timeout exceeded".

(** Truthiness of a string: only the empty string is falsy. *)
Definition truthy (s : string) : bool :=
  match s with
  | EmptyString => false
  | String _ _ => true
  end.

(** [x || ''] for [x : string | null]. *)
Definition orEmpty (x : option string) : string :=
  match x with
  | Some s => if truthy s then s else ""
  | None => ""
  end.

(** Characters are the code units below 256. *)
Definition code (c : ascii) : nat := nat_of_ascii c.

Definition between (lo hi : nat) (c : ascii) : bool :=
  (Nat.leb lo (code c)) && (Nat.leb (code c) hi).

Definition isDigit : ascii -> bool := between 48 57.
Definition isUpper : ascii -> bool := between 65 90.
Definition isLower : ascii -> bool := between 97 122.
Definition isAlpha (c : ascii) : bool := isUpper c || isLower c.
Definition isAlnum (c : ascii) : bool := isAlpha c || isDigit c.

(** WhiteSpace and LineTerminator code units: what [trim] strips and what
    the regular-expression class [\s] matches. *)
Definition isSpace (c : ascii) : bool :=
  between 9 13 c || Nat.eqb (code c) 32 || Nat.eqb (code c) 160.

(** [String.prototype.toLowerCase], one code unit at a time. *)
Definition lowerChar (c : ascii) : ascii :=
  if isUpper c then ascii_of_nat (code c + 32)
  else if between 192 222 c && negb (Nat.eqb (code c) 215)
       then ascii_of_nat (code c + 32)
       else c.

Fixpoint mapChars (f : ascii -> ascii) (s : string) : string :=
  match s with
  | EmptyString => EmptyString
  | String c s' => String (f c) (mapChars f s')
  end.

Definition toLowerCase : string -> string := mapChars lowerChar.

Fixpoint trimStart (s : string) : string :=
  match s with
  | EmptyString => EmptyString
  | String c s' => if isSpace c then trimStart s' else s
  end.

Fixpoint trimEnd (s : string) : string :=
  match s with
  | EmptyString => EmptyString
  | String c s' =>
      let t := trimEnd s' in
      if isSpace c && negb (truthy t) then EmptyString else String c t
  end.

Definition trim (s : string) : string := trimEnd (trimStart s).

(** [s.startsWith(p)] *)
Fixpoint startsWith (p s : string) : bool :=
  match p, s with
  | EmptyString, _ => true
  | String a p', String b s' => if Ascii.eqb a b then startsWith p' s' else false
  | String _ _, EmptyString => false
  end.

(** [s.includes(sub)] *)
Fixpoint includes (sub s : string) : bool :=
  if startsWith sub s then true
  else match s with
       | EmptyString => false
       | String _ s' => includes sub s'
       end.

(** [s.substring(0, n)] *)
Fixpoint take (n : nat) (s : string) : string :=
  match n, s with
  | O, _ => EmptyString
  | S _, EmptyString => EmptyString
  | S n', String c s' => String c (take n' s')
  end.

Fixpoint drop (n : nat) (s : string) : string :=
  match n, s with
  | O, _ => s
  | S _, EmptyString => EmptyString
  | S n', String _ s' => drop n' s'
  end.

(** The longest prefix whose characters satisfy [p], and what follows it. *)
Fixpoint span (p : ascii -> bool) (s : string) : string * string :=
  match s with
  | EmptyString => (EmptyString, EmptyString)
  | String c s' =>
      if p c then let (a, b) := span p s' in (String c a, b)
      else (EmptyString, s)
  end.

(** A case-insensitive literal at the head of [s] (regular-expression flag
    [i]); [lit] is given in lower case. *)
Fixpoint startsWithCI (lit s : string) : bool :=
  match lit, s with
  | EmptyString, _ => true
  | String a lit', String b s' =>
      if Ascii.eqb a (if isUpper b then ascii_of_nat (code b + 32) else b)
      then startsWithCI lit' s' else false
  | String _ _, EmptyString => false
  end.

(** [parseInt] on a string of decimal digits.  A JavaScript number is
    exact up to 2^53; the rounding of longer digit strings is not
    modelled. *)
Fixpoint parseDigits (acc : Z) (s : string) : Z :=
  match s with
  | EmptyString => acc
  | String c s' =>
      if isDigit c then parseDigits (10 * acc + Z.of_nat (code c - 48)) s'
      else acc
  end.

Definition parseInt (s : string) : Z := parseDigits 0 s.

End Js.

Export Js (Thrown(..), Fallible(..)).

(** ** The page as the scraper sees it *)

Module Dom.
Import Js.

(** A node of the loaded document.  [locatorAll sel] is
    [node.locator(sel).all()]: the matches of [sel] below the node, in
    document order. *)
Inductive Element := MkElement {
  getAttribute : string -> Fallible (option string);
  textContent : Fallible (option string);
  isVisible : Fallible bool;
  locatorAll : string -> Fallible (list Element)
}.

(** What [Promise.all([page.waitForLoadState('networkidle'),
    button.click()])] comes to.  Both settle, and [shown] is the page then
    shown; or one of them rejects: the click itself, which leaves the page
    as it was ([shown] is [None]), or the wait after a click that went
    through, which leaves the browser on another page ([shown] is that
    page). *)
Inductive Clicked (P : Type) :=
| Settled (shown : P)
| Rejected (e : Thrown) (shown : option P).
Arguments Settled {P} shown.
Arguments Rejected {P} e shown.

(** The page handle.  [clickNext sel] is the click on
    [page.locator(sel).first()] together with the wait for the idle
    network. *)
Inductive Page := MkPage {
  pageLocatorAll : string -> Fallible (list Element);
  clickNext : string -> Clicked Page
}.

(** [locator.first()] followed by an action: the action waits for the
    element and times out when the locator matches nothing. *)
Definition first {A} (q : Fallible (list Element))
    (act : Element -> Fallible A) : Fallible A :=
  match q with
  | Ok (e :: _) => act e
  | Ok [] => Throw timeout
  | Throw err => Throw err
  end.

(** An action on a locator that was not narrowed: Playwright's strict mode
    rejects it unless the locator matches exactly one element. *)
Definition strict {A} (q : Fallible (list Element))
    (act : Element -> Fallible A) : Fallible A :=
  match q with
  | Ok [e] => act e
  | Ok [] => Throw timeout
  | Ok (_ :: _ :: _) => Throw (ErrorObj "strict mode violation")
  | Throw err => Throw err
  end.

(** [locator.first().isVisible()]: false, not an error, when nothing
    matches. *)
Definition firstVisible (q : Fallible (list Element)) : Fallible bool :=
  match q with
  | Ok (e :: _) => isVisible e
  | Ok [] => Ok false
  | Throw err => Throw err
  end.

(** [locator.count()] *)
Definition count (q : Fallible (list Element)) : Fallible nat :=
  match q with
  | Ok l => Ok (length l)
  | Throw err => Throw err
  end.

End Dom.

(** ** Data model (types/index.ts) *)

Record Review := mkReview {
  id : string;
  reviewerName : string;
  reviewerLocation : option string;
  rating : Z;
  reviewTitle : string;
  reviewText : string;
  reviewDate : string;
  helpfulVotes : option Z;
  totalVotes : option Z;
  isVerified : option bool;
  tripType : option string;
  stayDate : option string
}.

Record ScrapingResult := mkScrapingResult {
  url : string;
  totalReviews : nat;
  scrapedReviews : nat;
  reviews : list Review;
  scrapedAt : string;
  businessName : option string;
  businessLocation : option string;
  overallRating : option string;
  error : option string
}.

(** The validity condition of the data model: a reviewer name and a title or
    a body. *)
Definition validReview (r : Review) : Prop :=
  reviewerName r ≠ "" ∧ (reviewTitle r ≠ "" ∨ reviewText r ≠ "").

(** ** The review cache (utils/reviewCache.ts) *)

Module ReviewCache.
Import Js.
Local Open Scope fallible_scope.

(** The names every plain object inherits from [Object.prototype]. *)
Definition objectPrototypeNames : list string :=
  [ "constructor"; "__defineGetter__"; "__defineSetter__"; "hasOwnProperty";
    "__lookupGetter__"; "__lookupSetter__"; "isPrototypeOf";
    "propertyIsEnumerable"; "toString"; "valueOf"; "__proto__";
    "toLocaleString" ].

Definition inherited (k : string) : bool :=
  existsb (String.eqb k) objectPrototypeNames.

(** The object [cache.reviews], [{ [reviewId: string]: Review }]: its own
    properties, and its prototype when an assignment to ["__proto__"] has
    replaced [Object.prototype] by a review object. *)
Record ReviewsObject := mkReviewsObject {
  own : gmap string Review;
  proto : option Review
}.

Record CacheData := mkCacheData {
  reviews : ReviewsObject;
  lastUpdated : string;
  hotelUrl : string
}.

Definition emptyReviews : ReviewsObject :=
  {| own := ∅; proto := None |}.

(** The own properties of a review object, each with the truthiness of its
    value; an optional field that is absent is no property. *)
Definition reviewFields (r : Review) : list (string * option bool) :=
  [ ("id", Some (truthy (id r)));
    ("reviewerName", Some (truthy (reviewerName r)));
    ("reviewerLocation", truthy <$> reviewerLocation r);
    ("rating", Some (negb (rating r =? 0)));
    ("reviewTitle", Some (truthy (reviewTitle r)));
    ("reviewText", Some (truthy (reviewText r)));
    ("reviewDate", Some (truthy (reviewDate r)));
    ("helpfulVotes", (fun n => negb (n =? 0)) <$> helpfulVotes r);
    ("totalVotes", (fun n => negb (n =? 0)) <$> totalVotes r);
    ("isVerified", isVerified r);
    ("tripType", truthy <$> tripType r);
    ("stayDate", truthy <$> stayDate r) ].

Definition reviewField (r : Review) (k : string) : option bool :=
  match find (fun p => String.eqb (fst p) k) (reviewFields r) with
  | Some (_, Some b) => Some b
  | _ => None
  end.

(** [k in obj]: own properties first, then the prototype chain. *)
Definition hasProperty (o : ReviewsObject) (k : string) : bool :=
  match own o !! k with
  | Some _ => true
  | None =>
      match proto o with
      | Some p =>
          match reviewField p k with
          | Some _ => true
          | None => inherited k
          end
      | None => inherited k
      end
  end.

(** [obj[k] = v]: the ["__proto__"] setter of [Object.prototype] replaces
    the prototype unless the object has an own property of that name. *)
Definition assign (o : ReviewsObject) (k : string) (v : Review) : ReviewsObject :=
  match own o !! k with
  | None =>
      if String.eqb k "__proto__" then {| own := own o; proto := Some v |}
      else {| own := <[k := v]> (own o); proto := proto o |}
  | Some _ => {| own := <[k := v]> (own o); proto := proto o |}
  end.

(** What [obj[k] || null] evaluates to. *)
Inductive Looked :=
| LReview (r : Review)
| LForeign            (* a truthy value that is no review: an inherited member *)
| LNull.

Definition lookupOrNull (o : ReviewsObject) (k : string) : Looked :=
  match own o !! k with
  | Some r => LReview r
  | None =>
      match proto o with
      | Some p =>
          match reviewField p k with
          | Some b => if b then LForeign else LNull
          | None =>
              if String.eqb k "__proto__" then LReview p
              else if inherited k then LForeign else LNull
          end
      | None => if inherited k then LForeign else LNull
      end
  end.

(** [new ReviewCache(hotelUrl)] before [loadCache]. *)
Definition fresh (now hotelUrl : string) : CacheData :=
  {| reviews := emptyReviews; lastUpdated := now; hotelUrl := hotelUrl |}.

Definition hasReview (c : CacheData) (reviewId : string) : bool :=
  hasProperty (reviews c) reviewId.

Definition getReview (c : CacheData) (reviewId : string) : Looked :=
  lookupOrNull (reviews c) reviewId.

Definition addReview (c : CacheData) (review : Review) : CacheData :=
  if truthy (id review)
  then {| reviews := assign (reviews c) (id review) review;
          lastUpdated := lastUpdated c;
          hotelUrl := hotelUrl c |}
  else c.

(** The [forEach] of [addReviews], with its counter [newCount]. *)
Fixpoint addReviewsFrom (c : CacheData) (newCount : nat) (rs : list Review)
    : CacheData * nat :=
  match rs with
  | [] => (c, newCount)
  | review :: rest =>
      if truthy (id review) && negb (hasReview c (id review))
      then addReviewsFrom (addReview c review) (S newCount) rest
      else addReviewsFrom c newCount rest
  end.

Definition addReviews (c : CacheData) (rs : list Review) : CacheData :=
  fst (addReviewsFrom c 0 rs).

(** [Object.keys(this.cache.reviews)]'s length. *)
Definition getCachedReviewCount (c : CacheData) : nat :=
  size (own (reviews c)).

Definition getStats (c : CacheData) : nat * string * string :=
  (getCachedReviewCount c, lastUpdated c, hotelUrl c).

Definition filterNewReviews (c : CacheData) (rs : list Review) : list Review :=
  filter (fun review => negb (hasReview c (id review))) rs.

(** *** Loading the cache file

    [JSON.parse] returns [any]: while [loadCache] runs, [this.cache] is
    whatever value the file holds. *)
Inductive JsValue :=
| JUndefined
| JNull
| JBool (b : bool)
| JNumber (n : Z)
| JString (s : string)
| JArray (items : list JsValue)
| JObject (fields : list (string * JsValue)).

(** The cache file: missing, present but unreadable ([readFileSync]
    throws), or read, with what [JSON.parse] makes of its text. *)
Inductive CacheFile :=
| Absent
| Unreadable (e : Thrown)
| Content (parsed : Fallible JsValue).

Definition typeError (what key : string) : Thrown :=
  ErrorObj ("Cannot read properties of " +:+ what +:+ " (reading '" +:+ key +:+ "')").

(** [v.key], for the keys [reviews] and [hotelUrl], which no prototype
    provides. *)
Definition getProp (v : JsValue) (key : string) : Fallible JsValue :=
  match v with
  | JUndefined => Throw (typeError "undefined" key)
  | JNull => Throw (typeError "null" key)
  | JObject fields =>
      match find (fun p => String.eqb (fst p) key) fields with
      | Some (_, x) => Ok x
      | None => Ok JUndefined
      end
  | _ => Ok JUndefined
  end.

(** [Object.keys(v).length] *)
Definition keysLength (v : JsValue) : Fallible nat :=
  match v with
  | JUndefined | JNull =>
      Throw (ErrorObj "Cannot convert undefined or null to object")
  | JObject fields => Ok (length fields)
  | JArray items => Ok (length items)
  | JString s => Ok (String.length s)
  | JBool _ | JNumber _ => Ok 0%nat
  end.

Definition emptyObject : JsValue := JObject [].

(** The cache object the constructor builds before it calls [loadCache]. *)
Definition initial (now hotelUrl : string) : JsValue :=
  JObject [("reviews", emptyObject); ("lastUpdated", JString now);
           ("hotelUrl", JString hotelUrl)].

(** The [catch] block of [loadCache]; [cache] is [this.cache] when the
    block is entered. *)
Definition startFresh (now : string) (cache : JsValue) : Fallible JsValue :=
  await h <- getProp cache "hotelUrl";
  Ok (JObject [("reviews", emptyObject); ("lastUpdated", JString now);
               ("hotelUrl", h)]).

(** [loadCache]: the value of [this.cache] afterwards, or what it throws
    to its caller. *)
Definition loadCache (now : string) (cache : JsValue) (file : CacheFile)
    : Fallible JsValue :=
  match file with
  | Absent => Ok cache
  | Unreadable _ => startFresh now cache
  | Content (Throw _) => startFresh now cache
  | Content (Ok parsed) =>
      (* this.cache = JSON.parse(data), then the log line reads
         Object.keys(this.cache.reviews).length *)
      match (await r <- getProp parsed "reviews"; keysLength r) with
      | Ok _ => Ok parsed
      | Throw _ => startFresh now parsed
      end
  end.

(** *** The cache file of a listing *)

(** The regular expression [d(\d+)] tried at the head of [s]: its group
    when it matches there. *)
Definition hotelIdAt (s : string) : option string :=
  match s with
  | String c rest =>
      if Ascii.eqb c "d"%char then
        let (digits, _) := span isDigit rest in
        if truthy digits then Some digits else None
      else None
  | EmptyString => None
  end.

(** [url.match(/d(\d+)/)]: the group of the leftmost match. *)
Fixpoint matchHotelId (s : string) : option string :=
  match hotelIdAt s with
  | Some hotelId => Some hotelId
  | None =>
      match s with
      | EmptyString => None
      | String _ s' => matchHotelId s'
      end
  end.

(** [hashUrl]: the number after the first [d] that a digit follows, else
    the first 20 characters of the URL with [_] for every character that
    is no letter or digit. *)
Definition hashUrl (url : string) : string :=
  match matchHotelId url with
  | Some hotelId => hotelId
  | None => take 20 (mapChars (fun c => if isAlnum c then c else "_"%char) url)
  end.

(** The name of the cache file below the cache directory. *)
Definition cacheFileName (hotelUrl : string) : string :=
  "reviews_" +:+ hashUrl hotelUrl +:+ ".json".

End ReviewCache.

(** ** The browser service (services/adpowerService.ts) *)

Module AdsPower.
Import Js.
Local Open Scope fallible_scope.

Record BrowserData := mkBrowserData {
  ws_puppeteer : string;
  debug_port : string
}.

Record ApiResponse := mkApiResponse {
  code : Z;
  msg : option string;
  data : option BrowserData
}.

(** [openBrowser]; [response] is the outcome of the HTTP request, the body
    of the answer when there is one. *)
Definition openBrowser (response : Fallible ApiResponse)
    : Fallible (string * string) :=
  await res <- response;
  if negb (code res =? 0)
  then Throw (ErrorObj (if truthy (orEmpty (msg res)) then orEmpty (msg res)
                        else "Failed to start browser"))
  else
    let wsEndpoint := orEmpty (ws_puppeteer <$> data res) in
    let debugPort := orEmpty (debug_port <$> data res) in
    if negb (truthy wsEndpoint)
    then Throw (ErrorObj "No WebSocket endpoint returned")
    else Ok (wsEndpoint, if truthy debugPort then debugPort else "9222").

End AdsPower.

(** ** The scraper (scraper/tripadvisorScraper.ts) *)

Module Scraper.
Import Js Dom.
Local Open Scope fallible_scope.

(** A selector fragment between double quotes. *)
Definition quoted (s : string) : string :=
  String "034"%char (s +:+ String "034"%char EmptyString).

(** [element.waitFor({ timeout })]: resolves once the element is visible. *)
Definition waitFor (e : Element) : Fallible unit :=
  match isVisible e with
  | Ok true => Ok tt
  | Ok false => Throw timeout
  | Throw err => Throw err
  end.

(** *** Rating *)

(** The regular expression [(\d+)\s+of\s+\d+\s+bubble] with flag [i],
    tried at the head of [s]: its first group when it matches there.  Each
    repetition is followed by a character outside its class, so a match
    takes every repetition at its longest. *)
Definition bubbleAt (s : string) : option string :=
  let (d1, r1) := span isDigit s in
  let (w1, r2) := span isSpace r1 in
  let r3 := drop 2 r2 in
  let (w2, r4) := span isSpace r3 in
  let (d2, r5) := span isDigit r4 in
  let (w3, r6) := span isSpace r5 in
  if truthy d1 && truthy w1 && startsWithCI "of" r2 && truthy w2
     && truthy d2 && truthy w3 && startsWithCI "bubble" r6
  then Some d1 else None.

(** [title.match(...)]: the leftmost match; [Some g] holds its group 1. *)
Fixpoint matchBubble (s : string) : option string :=
  match bubbleAt s with
  | Some g => Some g
  | None =>
      match s with
      | EmptyString => None
      | String _ s' => matchBubble s'
      end
  end.

(** What methods 1 and 2 do with a title text; [None] falls through. *)
Definition ratingOfTitle (title : option string) : option Z :=
  match title with
  | Some t =>
      if truthy t && includes "bubble" t then
        match matchBubble t with
        | Some g => Some (parseInt g)
        | None => None
        end
      else None
  | None => None
  end.

(** Method 1, the loop over the card's [svg] elements. *)
Fixpoint ratingFromSvgs (svgs : list Element) : option Z :=
  match svgs with
  | [] => None
  | svg :: rest =>
      match strict (locatorAll svg "title") textContent with
      | Ok title =>
          match ratingOfTitle title with
          | Some n => Some n
          | None => ratingFromSvgs rest
          end
      | Throw _ => ratingFromSvgs rest
      end
  end.

Definition ratingMethod1 (card : Element) : option Z :=
  match locatorAll card "svg" with
  | Ok svgs => ratingFromSvgs svgs
  | Throw _ => None
  end.

(** Method 2, through the [aria-labelledby] indirection. *)
Definition ratingMethod2 (card : Element) : option Z :=
  let attempt :=
    await ariaId <- first (locatorAll card "svg[aria-labelledby]")
                          (fun svg => getAttribute svg "aria-labelledby");
    if truthy (orEmpty ariaId) then
      await titleText <-
        first (locatorAll card ("title[id=" +:+ quoted (orEmpty ariaId) +:+ "]"))
              textContent;
      Ok (ratingOfTitle titleText)
    else Ok None in
  catch attempt None.

Definition filledBubblePaths : string :=
  "svg path[d*=" +:+ quoted "12 0C5.388" +:+ "]:not([d*="
    +:+ quoted "2a9.983" +:+ "])".

(** Method 3, counting the filled bubble paths. *)
Definition ratingMethod3 (card : Element) : option Z :=
  match count (locatorAll card filledBubblePaths) with
  | Ok filledBubbles =>
      if Nat.ltb 0 filledBubbles && Nat.leb filledBubbles 5
      then Some (Z.of_nat filledBubbles) else None
  | Throw _ => None
  end.

Definition extractRatingFromCard (card : Element) : Z :=
  match ratingMethod1 card with
  | Some n => n
  | None =>
      match ratingMethod2 card with
      | Some n => n
      | None =>
          match ratingMethod3 card with
          | Some n => n
          | None => 0
          end
      end
  end.

(** *** Reviewer name *)

Definition profileLinks : string := "a[href*=" +:+ quoted "/Profile/" +:+ "]".

Definition lengthWithin (t : string) : bool :=
  Nat.ltb 2 (String.length t) && Nat.ltb (String.length t) 50.

(** The test of method 1 on the text of a profile link's span. *)
Definition plausibleSpanName (text : string) : bool :=
  truthy text && truthy (trim text)
  && negb (includes "wrote" text)
  && negb (includes "Read more" text)
  && negb (includes "contributions" text)
  && negb (includes "helpful" text)
  && negb (includes "Filters" text)
  && negb (includes "Filter" text)
  && negb (includes "Sort" text)
  && negb (includes "Menu" text)
  && negb (includes "Search" text)
  && lengthWithin (trim text).

Fixpoint nameFromProfileLinks (links : list Element) : option string :=
  match links with
  | [] => None
  | link :: rest =>
      match first (locatorAll link "span") textContent with
      | Ok (Some text) =>
          if plausibleSpanName text then Some (trim text)
          else nameFromProfileLinks rest
      | Ok None => nameFromProfileLinks rest
      | Throw _ => nameFromProfileLinks rest
      end
  end.

Definition nameMethod1 (card : Element) : option string :=
  match locatorAll card profileLinks with
  | Ok links => nameFromProfileLinks links
  | Throw _ => None
  end.

(** Method 2: the profile link next to the words "wrote a review". *)
Definition nameMethod2 (card : Element) : option string :=
  let attempt :=
    await text <-
      first (locatorAll card "text=/wrote a review/") (fun section =>
      first (locatorAll section "xpath=..") (fun parentDiv =>
      first (locatorAll parentDiv (profileLinks +:+ " span")) textContent));
    match text with
    | Some t => if truthy t && truthy (trim t) then Ok (Some (trim t)) else Ok None
    | None => Ok None
    end in
  catch attempt None.

Definition uiElementsToFilter : list string :=
  [ "filters"; "filter"; "sort"; "menu"; "search"; "show more"; "show less";
    "read more"; "wrote a review"; "contributions"; "helpful votes";
    "hotel's favourite"; "response from"; "date of stay"; "trip type";
    "reviews"; "photos"; "location"; "contact"; "book now"; "check availability";
    "overview"; "amenities"; "policies"; "the area"; "guest reviews";
    "map"; "nearby"; "similar"; "more"; "less"; "all"; "none"; "apply";
    "clear"; "close"; "open"; "save"; "share"; "like"; "follow";
    "traveller"; "business"; "family"; "couple"; "solo"; "friends" ].

Definition isUIElement (text : string) : bool :=
  let lowerText := trim (toLowerCase text) in
  existsb (fun uiText => String.eqb lowerText uiText || includes uiText lowerText)
          uiElementsToFilter.

Definition months : list string :=
  [ "jan"; "feb"; "mar"; "apr"; "may"; "jun";
    "jul"; "aug"; "sep"; "oct"; "nov"; "dec" ].

(** [/^(jan|feb|...|dec)/i.test(t)] *)
Definition startsWithMonth (t : string) : bool :=
  existsb (fun m => startsWithCI m t) months.

(** [/^[A-Za-z]/.test(t)] *)
Definition startsWithLetter (t : string) : bool :=
  match t with
  | String c _ => isAlpha c
  | EmptyString => false
  end.

(** [/^[A-Z][a-z]+/.test(t)] *)
Definition startsCapitalized (t : string) : bool :=
  match t with
  | String c (String d _) => isUpper c && isLower d
  | _ => false
  end.

(** The test of method 3; [shape] is the pattern the trimmed text must
    start with. *)
Definition plausibleName (shape : string -> bool) (text : string) : bool :=
  truthy text && truthy (trim text)
  && lengthWithin (trim text)
  && shape (trim text)
  && negb (startsWithMonth (trim text))
  && negb (isUIElement (trim text)).

Fixpoint nameFromElements (elements : list Element) : option string :=
  match elements with
  | [] => None
  | element :: rest =>
      match (await ready <- waitFor element; textContent element) with
      | Ok (Some text) =>
          if plausibleName startsWithLetter text then Some (trim text)
          else nameFromElements rest
      | Ok None => nameFromElements rest
      | Throw _ => nameFromElements rest
      end
  end.

Definition nameSelectors : list string :=
  [ profileLinks +:+ " > span";
    "span:text-matches(" +:+ quoted "^[A-Z][a-z]+\\s+[A-Z]" +:+ ")";
    "span:text-matches(" +:+ quoted "^[A-Z][a-z]{2,}$" +:+ ")" ].

Fixpoint nameFromSelectors (card : Element) (selectors : list string)
    : option string :=
  match selectors with
  | [] => None
  | selector :: rest =>
      match locatorAll card selector with
      | Ok elements =>
          match nameFromElements elements with
          | Some name => Some name
          | None => nameFromSelectors card rest
          end
      | Throw _ => nameFromSelectors card rest
      end
  end.

Fixpoint nameFromSpans (spans : list Element) : option string :=
  match spans with
  | [] => None
  | span :: rest =>
      match textContent span with
      | Ok (Some text) =>
          if plausibleName startsCapitalized text then Some (trim text)
          else nameFromSpans rest
      | Ok None => nameFromSpans rest
      | Throw _ => nameFromSpans rest
      end
  end.

Definition nameFallback (card : Element) : option string :=
  match locatorAll card "span" with
  | Ok allSpans => nameFromSpans allSpans
  | Throw _ => None
  end.

Definition extractReviewerName (card : Element) : string :=
  match nameMethod1 card with
  | Some name => name
  | None =>
      match nameMethod2 card with
      | Some name => name
      | None =>
          match nameFromSelectors card nameSelectors with
          | Some name => name
          | None =>
              match nameFallback card with
              | Some name => name
              | None => "Anonymous"
              end
          end
      end
  end.

(** *** Title, body and date: the first selector whose text passes *)

(** [card.locator(selector).first()], [waitFor], then [textContent]. *)
Definition visibleText (card : Element) (selector : string)
    : Fallible (option string) :=
  first (locatorAll card selector) (fun element =>
    await ready <- waitFor element;
    textContent element).

Fixpoint firstAccepted (accept : string -> bool) (card : Element)
    (selectors : list string) : string :=
  match selectors with
  | [] => EmptyString
  | selector :: rest =>
      match visibleText card selector with
      | Ok (Some text) =>
          if truthy text && accept text then trim text
          else firstAccepted accept card rest
      | Ok None => firstAccepted accept card rest
      | Throw _ => firstAccepted accept card rest
      end
  end.

Definition reviewTitleTarget : string :=
  "[data-test-target=" +:+ quoted "review-title" +:+ "]".

Definition titleSelectors : list string :=
  [ reviewTitleTarget; reviewTitleTarget +:+ " a"; reviewTitleTarget +:+ " span";
    "h1"; "h2"; "h3"; "h4"; "h5"; "h6";
    "a[href*=" +:+ quoted "ShowUserReviews" +:+ "]";
    "a[href*=" +:+ quoted "Reviews" +:+ "] span";
    "span:text-matches(" +:+ quoted ".{10,100}" +:+ ")" ].

Definition extractReviewTitle (card : Element) : string :=
  firstAccepted
    (fun text => Nat.ltb 5 (String.length (trim text))
                 && Nat.ltb (String.length (trim text)) 200)
    card titleSelectors.

Definition textSelectors : list string :=
  [ "[data-automation*=" +:+ quoted "reviewText" +:+ "]";
    "[data-automation^=" +:+ quoted "reviewText" +:+ "]";
    "span:text-matches(" +:+ quoted ".{50,}" +:+ ")";
    "div:has-text(" +:+ quoted "Read more" +:+ ")";
    "div:text-matches(" +:+ quoted ".{100,}" +:+ ")";
    ":text-matches(" +:+ quoted ".{80,}" +:+ ")" ].

Definition extractReviewText (card : Element) : string :=
  firstAccepted (fun text => Nat.ltb 20 (String.length (trim text)))
    card textSelectors.

Definition monthYear : string :=
  "(January|February|March|April|May|June|July|August|September|October|November|December) \d{4}".

Definition dateSelectors : list string :=
  [ "text=" +:+ quoted "Date of stay:" +:+ " >> xpath=following-sibling::span";
    ":text(" +:+ quoted "Date of stay:" +:+ ") + span";
    "div:has-text(" +:+ quoted "Date of stay:" +:+ ") span:last-child";
    "span:text-matches(" +:+ quoted monthYear +:+ ")";
    "span:text-matches(" +:+ quoted "\w+ \d{4}" +:+ ")";
    "span:text-matches(" +:+ quoted "\d{4}" +:+ ")" ].

Definition extractReviewDate (card : Element) : string :=
  firstAccepted
    (fun text => truthy (trim text)
                 && negb (includes "contributions" text)
                 && negb (includes "helpful votes" text))
    card dateSelectors.

(** *** One review card *)

(** [s.replace(/[^a-zA-Z0-9]/g, '_')] *)
Definition sanitize : string -> string :=
  mapChars (fun c => if isAlnum c then c else "_"%char).

(** The identity of a card: the site's review id, else an [id] attribute
    that mentions "review", else a name generated from the card's position
    and the head of its text. *)
Definition reviewIdOf (card : Element) (index : nat) : Fallible string :=
  await a <- getAttribute card "data-reviewid";
  let reviewId := orEmpty a in
  if truthy reviewId then Ok reviewId
  else
    await b <- getAttribute card "id";
    let idAttr := orEmpty b in
    if includes "review" idAttr then Ok idAttr
    else
      await t <- textContent card;
      let cardText := orEmpty t in
      Ok ("generated_" +:+ pretty index +:+ "_" +:+ sanitize (take 20 cardText)).

(** [processSingleReviewCard]: the scraper's cache afterwards and the value
    returned ([LNull] for [null]).  [cache] is [this.cache], [None] when it
    is [null].  This is the run of one card while no other card is in
    flight; the cards of a batch are processed interleaved, for which the
    two halves of the function follow below. *)
Definition processSingleReviewCard (cache : option ReviewCache.CacheData)
    (card : Element) (index : nat)
    : option ReviewCache.CacheData * ReviewCache.Looked :=
  match reviewIdOf card index with
  | Throw _ => (cache, ReviewCache.LNull)
  | Ok reviewId =>
      let cached :=
        match cache with
        | Some c => ReviewCache.hasReview c reviewId
        | None => false
        end in
      if cached then
        (cache, match cache with
                | Some c => ReviewCache.getReview c reviewId
                | None => ReviewCache.LNull
                end)
      else
        let reviewerName := extractReviewerName card in
        let rating := extractRatingFromCard card in
        let reviewTitle := extractReviewTitle card in
        let reviewText := extractReviewText card in
        let reviewDate := extractReviewDate card in
        if truthy reviewerName && (truthy reviewText || truthy reviewTitle) then
          let newReview :=
            {| id := reviewId;
               reviewerName := trim reviewerName;
               reviewerLocation := None;
               rating := rating;
               reviewTitle := trim reviewTitle;
               reviewText := trim reviewText;
               reviewDate := trim reviewDate;
               helpfulVotes := Some 0;
               totalVotes := None;
               isVerified := Some false;
               tripType := None;
               stayDate := None |} in
          (match cache with
           | Some c => Some (ReviewCache.addReview c newReview)
           | None => None
           end,
           ReviewCache.LReview newReview)
        else (cache, ReviewCache.LNull)
  end.

(** The two halves of [processSingleReviewCard].  The first ends with the
    look into the cache.  Between the two the code awaits the five
    extractors, and the other cards of the batch run meanwhile on the same
    cache: the second half meets the cache as they have left it. *)
Inductive CardLookup :=
| Answered (value : ReviewCache.Looked)
| Extracting (reviewId : string).

Definition lookUpCard (cache : option ReviewCache.CacheData)
    (card : Element) (index : nat) : CardLookup :=
  match reviewIdOf card index with
  | Throw _ => Answered ReviewCache.LNull
  | Ok reviewId =>
      let cached :=
        match cache with
        | Some c => ReviewCache.hasReview c reviewId
        | None => false
        end in
      if cached then
        Answered match cache with
                 | Some c => ReviewCache.getReview c reviewId
                 | None => ReviewCache.LNull
                 end
      else Extracting reviewId
  end.

Definition extractAndStore (cache : option ReviewCache.CacheData)
    (card : Element) (reviewId : string)
    : option ReviewCache.CacheData * ReviewCache.Looked :=
  let reviewerName := extractReviewerName card in
  let rating := extractRatingFromCard card in
  let reviewTitle := extractReviewTitle card in
  let reviewText := extractReviewText card in
  let reviewDate := extractReviewDate card in
  if truthy reviewerName && (truthy reviewText || truthy reviewTitle) then
    let newReview :=
      {| id := reviewId;
         reviewerName := trim reviewerName;
         reviewerLocation := None;
         rating := rating;
         reviewTitle := trim reviewTitle;
         reviewText := trim reviewText;
         reviewDate := trim reviewDate;
         helpfulVotes := Some 0;
         totalVotes := None;
         isVerified := Some false;
         tripType := None;
         stayDate := None |} in
    (match cache with
     | Some c => Some (ReviewCache.addReview c newReview)
     | None => None
     end,
     ReviewCache.LReview newReview)
  else (cache, ReviewCache.LNull).

(** *** Locating the cards of a page (first phase of [extractReviews]) *)

Definition tabReviewContent : string := "#tab-review-content".

Definition reviewCardSelectors : list string :=
  [ "[data-reviewid]";
    "[data-test-target=" +:+ quoted "review-card" +:+ "]";
    ".review-container";
    tabReviewContent +:+ " div:has(svg[aria-labelledby])";
    tabReviewContent +:+ " div:has([href*=" +:+ quoted "/Profile/" +:+ "])";
    tabReviewContent +:+ " div:has-text(" +:+ quoted "wrote a review" +:+ ")";
    tabReviewContent +:+ " > div > div";
    tabReviewContent +:+ " [class*=" +:+ quoted "review" +:+ "]";
    tabReviewContent +:+ " > div";
    "[class*=" +:+ quoted "review" +:+ "]";
    ".ui_column.is-9 > div";
    "article";
    "div[id*=" +:+ quoted "review" +:+ "]" ].

Definition innerSelectors : list string :=
  [ "> div > div[class*=" +:+ quoted "review" +:+ "]";
    "> div > div";
    "> div";
    "div[data-automation]";
    "div[class*=" +:+ quoted "ui_column" +:+ "]" ].

(** The test that takes a single match for the container of all reviews:
    its [id], or the filter bar's text in it. *)
Definition isContainer (card : Element) : Fallible bool :=
  await a <- getAttribute card "id";
  await t <- textContent card;
  Ok (String.eqb (orEmpty a) "tab-review-content"
      || includes "FiltersEnglish" (orEmpty t)).

(** The loop over the inner selectors: [reviewCards] after it, which is
    still empty when no inner selector gave more than one element. *)
Fixpoint individualReviews (card : Element) (inner : list string)
    : list Element :=
  match inner with
  | [] => []
  | innerSelector :: rest =>
      match locatorAll card innerSelector with
      | Ok innerCards =>
          if Nat.ltb 1 (length innerCards) then innerCards
          else individualReviews card rest
      | Throw _ => individualReviews card rest
      end
  end.

(** The loop over the card selectors.  Its block of debug output reads
    the first cards inside a [try] of its own and changes nothing. *)
Fixpoint locateReviewCards (page : Page) (selectors : list string)
    : list Element :=
  match selectors with
  | [] => []
  | selector :: rest =>
      match pageLocatorAll page selector with
      | Ok cards =>
          match cards with
          | [] => locateReviewCards page rest
          | [card] =>
              match isContainer card with
              | Ok true =>
                  let reviewCards := individualReviews card innerSelectors in
                  if Nat.ltb 1 (length reviewCards) then reviewCards else cards
              | Ok false => cards
              | Throw _ => locateReviewCards page rest
              end
          | _ => cards
          end
      | Throw _ => locateReviewCards page rest
      end
  end.

Definition findReviewCards (page : option Page) : list Element :=
  match page with
  | Some p => locateReviewCards p reviewCardSelectors
  | None => []
  end.

(** *** Advancing to the next page *)

Definition nextPageSelectors : list string :=
  [ "a[data-smoke-attr=" +:+ quoted "pagination-next-arrow" +:+ "]";
    "a[aria-label=" +:+ quoted "Next page" +:+ "]";
    ".IGLCo a";
    "a:has-text(" +:+ quoted "Next" +:+ ")";
    "a[href*=" +:+ quoted "or10-" +:+ "], a[href*=" +:+ quoted "or20-"
      +:+ "], a[href*=" +:+ quoted "or30-" +:+ "]";
    ".pagination a:last-child";
    "a:has(svg):last-of-type" ].

(** The loop over the next-page selectors: the page shown afterwards and
    the value returned.  After a click that rejects the loop goes on with
    the selectors that are left, on the page the browser then shows. *)
Fixpoint clickFirstNext (page : Page) (selectors : list string) : Page * bool :=
  match selectors with
  | [] => (page, false)
  | selector :: rest =>
      let nextButton := pageLocatorAll page selector in
      match firstVisible nextButton with
      | Ok true =>
          match first nextButton (fun b => getAttribute b "disabled") with
          | Ok isDisabled =>
              if truthy (orEmpty isDisabled) then clickFirstNext page rest
              else
                match first nextButton (fun b => getAttribute b "href") with
                | Ok href =>
                    if truthy (orEmpty href) then
                      match clickNext page selector with
                      | Settled page' => (page', true)
                      | Rejected _ None => clickFirstNext page rest
                      | Rejected _ (Some page') => clickFirstNext page' rest
                      end
                    else clickFirstNext page rest
                | Throw _ => clickFirstNext page rest
                end
          | Throw _ => clickFirstNext page rest
          end
      | Ok false => clickFirstNext page rest
      | Throw _ => clickFirstNext page rest
      end
  end.

Definition navigateToNextPage (page : option Page) : option Page * bool :=
  match page with
  | None => (None, false)
  | Some p => let (p', moved) := clickFirstNext p nextPageSelectors in (Some p', moved)
  end.

(** *** The session loop

    [extractReviews] and [navigateToNextPage] act on the browser; here
    they are any two functions on a state of the world.  [maxReviews] is
    [None] for [undefined]; [parseInt] in [main] supplies integers (or
    [NaN], which both guards treat as they treat [undefined]).  The loop
    need not terminate: [fuel] bounds the number of pages visited. *)

(** A session after at most [fuel] page visits: it has returned
    [allReviews], or it is about to visit one more page. *)
Inductive Run (World : Type) :=
| Returned (w : World) (allReviews : list Review)
| Running (w : World) (allReviews : list Review).
Arguments Returned {World} w allReviews.
Arguments Running {World} w allReviews.

(** The reviews collected so far. *)
Definition collection {World : Type} (run : Run World) : list Review :=
  match run with
  | Returned _ allReviews => allReviews
  | Running _ allReviews => allReviews
  end.

Section Pagination.
Context {World : Type}.
Variable extractReviews : World -> World * list Review.
Variable navigateToNextPage : World -> World * bool.

(** [!maxReviews || allReviews.length < maxReviews] *)
Definition underCap (maxReviews : option Z) (allReviews : list Review) : bool :=
  match maxReviews with
  | None => true
  | Some m => (m =? 0) || (Z.of_nat (length allReviews) <? m)
  end.

(** [maxReviews && allReviews.length >= maxReviews] *)
Definition capReached (maxReviews : option Z) (allReviews : list Review) : bool :=
  match maxReviews with
  | None => false
  | Some m => negb (m =? 0) && (m <=? Z.of_nat (length allReviews))
  end.

(** [allReviews.some(existing => existing.id === review.id)] *)
Definition collected (allReviews : list Review) (review : Review) : bool :=
  existsb (fun existing => String.eqb (id existing) (id review)) allReviews.

(** The [for] loop that adds a page's reviews to the collection. *)
Fixpoint addPage (maxReviews : option Z) (allReviews : list Review)
    (addedCount : nat) (pageReviews : list Review) : list Review * nat :=
  match pageReviews with
  | [] => (allReviews, addedCount)
  | review :: rest =>
      if underCap maxReviews allReviews && negb (collected allReviews review)
      then addPage maxReviews (allReviews ++ [review]) (S addedCount) rest
      else addPage maxReviews allReviews addedCount rest
  end.

(** The [while] loop, entered with the loop variables as given. *)
Fixpoint paginate (fuel : nat) (maxReviews : option Z) (w : World)
    (allReviews : list Review) (currentPage : nat) (hasMorePages : bool)
    : Run World :=
  if hasMorePages && underCap maxReviews allReviews then
    match fuel with
    | O => Running w allReviews
    | S fuel' =>
        let (w1, pageReviews) := extractReviews w in
        let (allReviews', addedCount) :=
          addPage maxReviews allReviews 0 pageReviews in
        (* addedCount = 0 only logs a warning *)
        if capReached maxReviews allReviews' then Returned w1 allReviews'
        else
          let (w2, more) := navigateToNextPage w1 in
          paginate fuel' maxReviews w2 allReviews'
                   (if more then S currentPage else currentPage) more
    end
  else Returned w allReviews.

Definition extractAllReviewsWithPagination (fuel : nat)
    (maxReviews : option Z) (w : World) : Run World :=
  paginate fuel maxReviews w [] 1 true.

End Pagination.

(** *** Batch mode

    [scrapeReviews] is any session: it changes the world and returns a
    result or throws, or it never returns.  [now] reads the clock. *)

(** A session after at most so many page visits: what [scrapeReviews]
    returned or threw, or still running. *)
Inductive SessionRun (World : Type) :=
| SessionOver (w : World) (outcome : Fallible ScrapingResult)
| SessionRunning (w : World).
Arguments SessionOver {World} w outcome.
Arguments SessionRunning {World} w.

(** A batch: it has returned [allResults], or it waits for a session that
    is still running, with [allResults] as pushed so far. *)
Inductive BatchRun (World : Type) :=
| BatchReturned (w : World) (allResults : list ScrapingResult)
| BatchRunning (w : World) (allResults : list ScrapingResult).
Arguments BatchReturned {World} w allResults.
Arguments BatchRunning {World} w allResults.

Definition pushed {World : Type} (run : BatchRun World) : list ScrapingResult :=
  match run with
  | BatchReturned _ allResults => allResults
  | BatchRunning _ allResults => allResults
  end.

Section Batch.
Context {World : Type}.
Variable scrapeReviews : World -> string -> option Z -> SessionRun World.
Variable now : World -> string.

(** [error instanceof Error ? error.message : 'Unknown error'] *)
Definition errorMessage (e : Thrown) : string :=
  match e with
  | ErrorObj message => message
  | NonError => "Unknown error"
  end.

Definition failedResult (url scrapedAt : string) (e : Thrown) : ScrapingResult :=
  {| url := url;
     totalReviews := 0;
     scrapedReviews := 0;
     reviews := [];
     scrapedAt := scrapedAt;
     businessName := None;
     businessLocation := None;
     overallRating := None;
     error := Some (errorMessage e) |}.

(** The [for] loop over the URLs, with [allResults] as collected so far.
    The loop awaits each session: it goes on to the next URL when the
    session has returned or thrown, and not before. *)
Fixpoint scrapeEach (w : World) (allResults : list ScrapingResult)
    (urls : list string) (maxReviewsPerUrl : option Z) : BatchRun World :=
  match urls with
  | [] => BatchReturned w allResults
  | url :: rest =>
      match scrapeReviews w url maxReviewsPerUrl with
      | SessionRunning w1 => BatchRunning w1 allResults
      | SessionOver w1 (Ok result) =>
          scrapeEach w1 (allResults ++ [result]) rest maxReviewsPerUrl
      | SessionOver w1 (Throw e) =>
          scrapeEach w1 (allResults ++ [failedResult url (now w1) e]) rest
                     maxReviewsPerUrl
      end
  end.

Definition scrapeMultipleUrls (w : World) (urls : list string)
    (maxReviewsPerUrl : option Z) : BatchRun World :=
  scrapeEach w [] urls maxReviewsPerUrl.

End Batch.

(** *** Batches of cards (the loop of [processReviewCardsInParallel]) *)

Definition concurrencyLimit : nat := 10.

(** [cards.slice(i, j)] for [i <= j] *)
Definition slice {A : Type} (i j : nat) (cards : list A) : list A :=
  firstn (j - i) (skipn i cards).

(** The values [i] takes in [for (i = 0; i < n; i += concurrencyLimit)],
    from [i] on. *)
Fixpoint batchStarts (fuel i n : nat) : list nat :=
  match fuel with
  | O => []
  | S fuel' =>
      if Nat.ltb i n then i :: batchStarts fuel' (i + concurrencyLimit) n
      else []
  end.

(** The batches in the order they are processed. *)
Definition cardBatches {A : Type} (reviewCards : list A) : list (list A) :=
  map (fun i => slice i (i + concurrencyLimit) reviewCards)
      (batchStarts (length reviewCards) 0 (length reviewCards)).

(** [Math.floor(i / concurrencyLimit) + 1] and
    [Math.ceil(reviewCards.length / concurrencyLimit)], the two numbers of
    the progress line of a batch. *)
Definition batchNumber (i : nat) : nat := (i / concurrencyLimit + 1)%nat.
Definition totalBatches {A : Type} (reviewCards : list A) : nat :=
  ((length reviewCards + (concurrencyLimit - 1)) / concurrencyLimit)%nat.

(** *** One session

    The browser steps of [scrapeReviews] are functions on the world, in
    which the scraper's cache lives: [newReviewCache] is the constructor,
    [goto] the navigation, [settle] the waiting, scrolling and closing of
    pop-ups, whose errors are all swallowed. *)

Section Session.
Context {World : Type}.
Variable newReviewCache : World -> string -> World * Fallible unit.
Variable goto : World -> string -> World * Fallible unit.
Variable settle : World -> World.
Variable extractReviews : World -> World * list Review.
Variable navigateToNextPage : World -> World * bool.
Variable saveCache : World -> World.
Variable getCachedReviewCount : World -> nat.
Variable now : World -> string.

Definition notInitialized : Thrown :=
  ErrorObj "Browser not initialized. Call initialize() first.".

(** [scrapeReviews]; [hasPage] tells whether [this.page] is set. *)
Definition scrapeReviews (fuel : nat) (hasPage : bool) (w : World)
    (url : string) (maxReviews : option Z) : SessionRun World :=
  if negb hasPage then SessionOver w (Throw notInitialized)
  else
    match newReviewCache w url with
    | (w1, Throw e) => SessionOver w1 (Throw e)
    | (w1, Ok _) =>
        match goto w1 url with
        | (w2, Throw e) => SessionOver w2 (Throw e)
        | (w2, Ok _) =>
            match extractAllReviewsWithPagination extractReviews
                    navigateToNextPage fuel maxReviews (settle w2) with
            | Running w3 _ => SessionRunning w3
            | Returned w3 reviews =>
                let w4 := saveCache w3 in
                SessionOver w4
                  (Ok {| url := url;
                         totalReviews := getCachedReviewCount w4;
                         scrapedReviews := length reviews;
                         reviews := reviews;
                         scrapedAt := now w4;
                         businessName := None;
                         businessLocation := None;
                         overallRating := None;
                         error := None |})
            end
        end
    end.

End Session.

End Scraper.

(** ** The command line (index.ts) *)

Module Main.
Import Js.

(** [s.split(sep)] for a separator of one character. *)
Fixpoint splitOn (sep : ascii) (s : string) : list string :=
  match s with
  | EmptyString => [EmptyString]
  | String c rest =>
      if Ascii.eqb c sep then EmptyString :: splitOn sep rest
      else
        match splitOn sep rest with
        | piece :: pieces => String c piece :: pieces
        | [] => [String c EmptyString]
        end
  end.

Definition newline : ascii := "010"%char.
Definition comma : ascii := ","%char.

(** [lines.map(line => line.trim()).filter(keep)] *)
Definition trimmedAndKept (keep : string -> bool) (pieces : list string)
    : list string :=
  List.filter keep (map trim pieces).

(** [parseUrlInput].  [readFile path] is [None] when [path] does not exist
    and else what [readFileSync] returns or throws. *)
Definition parseUrlInput (readFile : string -> option (Fallible string))
    (input : string) : list string :=
  if startsWith "file:" input then
    let filePath := drop 5 input in
    match readFile filePath with
    | None => []
    | Some (Throw _) => []
    | Some (Ok fileContent) =>
        trimmedAndKept (fun line => truthy line && negb (startsWith "#" line))
                       (splitOn newline fileContent)
    end
  else if includes "," input then
    trimmedAndKept truthy (splitOn comma input)
  else [trim input].

(** How [main] goes on from its first argument, when that is no cache
    command. *)
Inductive Start :=
| Usage
| NoValidUrls
| InvalidUrl (url : string)
| SingleUrl (url : string)
| BatchOfUrls (urls : list string).

(** [main] from the parsing of the URLs to the choice between the single
    session and the batch. *)
Definition start (readFile : string -> option (Fallible string))
    (urlInput : option string) : Start :=
  if negb (truthy (orEmpty urlInput)) then Usage
  else
    let urls := parseUrlInput readFile (orEmpty urlInput) in
    match urls with
    | [] => NoValidUrls
    | _ =>
        match find (fun url => negb (includes "tripadvisor." url)) urls with
        | Some url => InvalidUrl url
        | None =>
            match urls with
            | [url] => SingleUrl url
            | _ => BatchOfUrls urls
            end
        end
    end.

End Main.

(** ** The export (utils/dataExporter.ts) *)

Module DataExporter.
Import Js.

(** [!result.error] *)
Definition succeeded (result : ScrapingResult) : bool :=
  negb (truthy (orEmpty (error result))).

(** The [batchInfo] of [exportBatchToJson]: [totalUrls], [successfulUrls],
    [failedUrls], [totalReviews]. *)
Definition batchInfo (dataArray : list ScrapingResult) : nat * nat * nat * nat :=
  (length dataArray,
   length (List.filter succeeded dataArray),
   length (List.filter (fun result => truthy (orEmpty (error result))) dataArray),
   fold_left (fun sum result => (sum + scrapedReviews result)%nat) dataArray 0%nat).

(** [calculateRatingDistribution]: the object with the keys '1' to '5',
    where [distribution[Math.floor(rating).toString()]] is counted up when
    it is defined.  Ratings are integers here, and the decimal name of an
    integer is none of the names an object inherits. *)
Definition noRatings : gmap string nat :=
  list_to_map [("1", 0%nat); ("2", 0%nat); ("3", 0%nat); ("4", 0%nat); ("5", 0%nat)].

Definition countRating (distribution : gmap string nat) (review : Review)
    : gmap string nat :=
  let rating := pretty (rating review) in
  match distribution !! rating with
  | Some n => <[rating := S n]> distribution
  | None => distribution
  end.

Definition calculateRatingDistribution (reviews : list Review) : gmap string nat :=
  fold_left countRating reviews noRatings.

End DataExporter.

(** ** Vocabulary of the statements *)

Module Spec.
Import Js Dom ReviewCache Scraper.

(** A string that [trim] leaves alone, and that is not empty. *)
Definition clean (s : string) : Prop := trim s = s ∧ s ≠ "".

(** The identities of a sequence of reviews. *)
Definition idsOf (rs : list Review) : gset string := list_to_set (id <$> rs).

(** An id that a plain object keeps as an own property under that very
    name: not empty, and none of the names inherited from
    [Object.prototype]. *)
Definition storable (k : string) : Prop := k ≠ "" ∧ inherited k = false.

(** Every review the cache holds as an entry is valid. *)
Definition allValid (c : CacheData) : Prop :=
  ∀ (k : string) (r : Review), own (reviews c) !! k = Some r -> validReview r.

(** A selector the locator settles on: its query returns at least one
    match and, when it returns exactly one, the container test on that
    match does not fail. *)
Definition usable (page : Page) (selector : string) : bool :=
  match pageLocatorAll page selector with
  | Ok [] => false
  | Ok [card] =>
      match isContainer card with
      | Ok _ => true
      | Throw _ => false
      end
  | Ok (_ :: _ :: _) => true
  | Throw _ => false
  end.

(** An inner selector that finds more than one element in the container. *)
Definition severalInside (card : Element) (innerSelector : string) : bool :=
  match locatorAll card innerSelector with
  | Ok innerCards => Nat.ltb 1 (length innerCards)
  | Throw _ => false
  end.

Definition matchesInside (card : Element) (innerSelector : string) : list Element :=
  match locatorAll card innerSelector with
  | Ok innerCards => innerCards
  | Throw _ => []
  end.

(** The cards the text of the specification asks for, once the selector to
    use and its matches are known. *)
Definition cardsFrom (cards : list Element) : list Element :=
  match cards with
  | [card] =>
      match isContainer card with
      | Ok true =>
          match find (severalInside card) innerSelectors with
          | Some innerSelector => matchesInside card innerSelector
          | None => [card]
          end
      | _ => [card]
      end
  | _ => cards
  end.

Section Sessions.
Context {World : Type}.
Variable scrapeReviews : World -> string -> option Z -> SessionRun World.
Variable now : World -> string.



End Sessions.


(** [shownAfterRejections p q]: from the page [p] on, clicks on next-page
    buttons that were rejected after they had gone through have left the
    browser on the page [q]; [q] is [p] when there was no such click. *)
Inductive shownAfterRejections : Page -> Page -> Prop :=
| shown_same (p : Page) : shownAfterRejections p p
| shown_later (p q r : Page) (selector : string) (e : Thrown) :
    clickNext p selector = Rejected e (Some q) ->
    shownAfterRejections q r ->
    shownAfterRejections p r.

(** Every character of [s] satisfies [p]. *)
Fixpoint allChars (p : ascii -> bool) (s : string) : bool :=
  match s with
  | EmptyString => true
  | String c s' => p c && allChars p s'
  end.

(** A character that may stand in a file name whatever the URL was: a
    letter, a digit or an underscore. *)
Definition nameChar (c : ascii) : bool := isAlnum c || Ascii.eqb c "_"%char.

(** The URLs written one after the other with commas between them. *)
Fixpoint commaSeparated (urls : list string) : string :=
  match urls with
  | [] => ""
  | [u] => u
  | u :: rest => u +:+ String Main.comma (commaSeparated rest)
  end.

(** A listing given by its pages: the world is the number of the page
    shown, [pageAt i] what [extractReviews] finds on page [i] and [nextAt i]
    what [navigateToNextPage] answers there. *)
Definition pagesOf (pageAt : nat -> list Review) (i : nat) : nat * list Review :=
  (i, pageAt i).
Definition nextOf (nextAt : nat -> bool) (i : nat) : nat * bool :=
  (S i, nextAt i).

End Spec.

(** ** Concrete pages, cards and sessions *)

Module Samples.
Import Js Dom.

Definition sampleReview (k : string) : Review :=
  {| id := k; reviewerName := "Ana"; reviewerLocation := None; rating := 5;
     reviewTitle := "Lovely stay"; reviewText := ""; reviewDate := "";
     helpfulVotes := Some 0; totalVotes := None; isVerified := Some false;
     tripType := None; stayDate := None |}.

(** An element with the given text, no attribute and nothing below it. *)
Definition leaf (text : string) : Element :=
  MkElement (fun _ => Ok None) (Ok (Some text)) (Ok true) (fun _ => Ok []).

(** An element with the given text whose only descendants are [children],
    found by [selector]. *)
Definition node (text selector : string) (children : list Element) : Element :=
  MkElement (fun _ => Ok None) (Ok (Some text)) (Ok true)
            (fun sel => if String.eqb sel selector then Ok children else Ok []).

(** A card whose rating icon is titled [title]. *)
Definition cardWithBubbles (title : string) : Element :=
  node title "svg" [node title "title" [leaf title]].

(** A hotel review card as the site serves it: the review id, the profile
    link with the reviewer's name, the title and the body. *)
Definition hotelCard : Element :=
  MkElement
    (fun a => if String.eqb a "data-reviewid" then Ok (Some "930114571")
              else Ok None)
    (Ok (Some "Maria K wrote a review Wonderful weekend"))
    (Ok true)
    (fun sel =>
       if String.eqb sel Scraper.profileLinks
       then Ok [node "Maria K" "span" [leaf " Maria K "]]
       else if String.eqb sel "svg"
       then Ok [node "5 of 5 bubbles" "title" [leaf "5 of 5 bubbles"]]
       else if String.eqb sel Scraper.reviewTitleTarget
       then Ok [leaf "Wonderful weekend"]
       else if String.eqb sel ("[data-automation*=" +:+ Scraper.quoted "reviewText" +:+ "]")
       then Ok [leaf "  The room was spotless and the staff went out of their way. "]
       else Ok []).

(** A card handle whose element has left the document: reading it times
    out. *)
Definition detachedCard : Element :=
  MkElement (fun _ => Throw timeout) (Throw timeout) (Throw timeout)
            (fun _ => Ok []).

(** A page without any element. *)
Definition blankPage : Page :=
  MkPage (fun _ => Ok []) (fun _ => Rejected timeout None).

(** The single match of its first selector is detached; [article] matches
    two reviews. *)
Definition pageWithDetachedCard : Page :=
  MkPage (fun sel =>
            if String.eqb sel "[data-reviewid]" then Ok [detachedCard]
            else if String.eqb sel "article" then Ok [leaf "first"; leaf "second"]
            else Ok [])
         (fun _ => Rejected timeout None).

(** The review container, recognised by its [id], holding two reviews as
    [> div > div]. *)
Definition reviewContainer : Element :=
  MkElement (fun a => if String.eqb a "id" then Ok (Some "tab-review-content")
                      else Ok None)
            (Ok (Some "FiltersEnglish"))
            (Ok true)
            (fun sel => if String.eqb sel "> div > div"
                        then Ok [leaf "first"; leaf "second"] else Ok []).

Definition pageWithContainer : Page :=
  MkPage (fun sel =>
            if String.eqb sel ".review-container" then Ok [reviewContainer]
            else Ok [])
         (fun _ => Rejected timeout None).

(** A visible, enabled next-page arrow. *)
Definition nextArrow : Element :=
  MkElement (fun a => if String.eqb a "href"
                      then Ok (Some "/Hotel_Review-g1-d2-Reviews-or10-Inn.html")
                      else Ok None)
            (Ok (Some ""))
            (Ok true)
            (fun _ => Ok []).

(** A page whose next-page arrow leads to [destination]. *)
Definition pageLeadingTo (destination : Page) : Page :=
  MkPage (fun sel =>
            if String.eqb sel ("a[data-smoke-attr="
                               +:+ Scraper.quoted "pagination-next-arrow" +:+ "]")
            then Ok [nextArrow] else Ok [])
         (fun _ => Settled destination).

(** A listing whose pages never end and never show a card: the world is
    the number of the page shown. *)
Definition emptyPageOf (pageNumber : nat) : nat * list Review := (pageNumber, []).
Definition alwaysNext (pageNumber : nat) : nat * bool := (S pageNumber, true).

(** A listing of one page with three reviews. *)
Definition threeReviews (w : unit) : unit * list Review :=
  (w, [sampleReview "r1"; sampleReview "r2"; sampleReview "r3"]).
Definition noNext (w : unit) : unit * bool := (w, false).

Definition clock (w : unit) : string := "t".

(** A listing whose page [i] shows one review, with the id [i]. *)
Definition onePerPage (i : nat) : list Review := [sampleReview (pretty i)].

(** A session on the listing [threeReviews]: the cache is set up and the
    page reached without error, and three reviews are in the cache at the
    end. *)
Definition ready (w : unit) (u : string) : unit * Fallible unit := (w, Ok tt).
Definition threeCached (w : unit) : nat := 3%nat.
Definition threeReviewsResult : ScrapingResult :=
  {| url := "u"; totalReviews := 3; scrapedReviews := 3;
     reviews := [sampleReview "r1"; sampleReview "r2"; sampleReview "r3"];
     scrapedAt := "t";
     businessName := None; businessLocation := None; overallRating := None;
     error := None |}.

(** The navigation of batch mode: the URL "bad" cannot be reached. *)
Definition gotoUnlessBad (w : unit) (u : string) : unit * Fallible unit :=
  if String.eqb u "bad" then (w, Throw (ErrorObj "net::ERR_NAME_NOT_RESOLVED"))
  else (w, Ok tt).

(** [scrapeReviews] on the listing [threeReviews], for any URL but "bad". *)
Definition threeReviewsSession
    : unit -> string -> option Z -> Scraper.SessionRun unit :=
  Scraper.scrapeReviews ready gotoUnlessBad (fun w => w) threeReviews noNext
    (fun w => w) threeCached clock 1 true.


(** A page whose next-page arrow is clicked, whereupon the browser shows
    [destination], but the network does not become idle in time. *)
Definition pageLosingTo (destination : Page) : Page :=
  MkPage (fun sel =>
            if String.eqb sel ("a[data-smoke-attr="
                               +:+ Scraper.quoted "pagination-next-arrow" +:+ "]")
            then Ok [nextArrow] else Ok [])
         (fun _ => Rejected timeout (Some destination)).

End Samples.

(** * Properties *)

Import Spec.

(** ** Strings *)

Section StringFacts.
Import Js.

Lemma truthy_nonempty (s : string) : truthy s = true <-> s ≠ "".
Proof. destruct s; simpl; split; congruence. Qed.

Lemma trimStart_shape (s : string) :
  match trimStart s with
  | EmptyString => True
  | String c _ => isSpace c = false
  end.
Proof.
  induction s as [|c s IH]; simpl; [exact I|].
  destruct (isSpace c) eqn:Hc; [exact IH|]. exact Hc.
Qed.

Lemma trimEnd_idem (s : string) : trimEnd (trimEnd s) = trimEnd s.
Proof.
  induction s as [|c s IH]; simpl; [reflexivity|].
  destruct (isSpace c && negb (truthy (trimEnd s))) eqn:Hc; simpl.
  - reflexivity.
  - rewrite IH, Hc. reflexivity.
Qed.

Lemma trimStart_trimEnd (s : string) :
  match s with
  | EmptyString => True
  | String c _ => isSpace c = false
  end ->
  trimStart (trimEnd s) = trimEnd s.
Proof.
  destruct s as [|c s]; simpl; [reflexivity|].
  intros Hc. rewrite Hc. simpl. rewrite Hc. reflexivity.
Qed.

Lemma trim_idem (s : string) : trim (trim s) = trim s.
Proof.
  unfold trim.
  rewrite (trimStart_trimEnd (trimStart s)) by apply trimStart_shape.
  apply trimEnd_idem.
Qed.

Lemma clean_trim (t : string) : truthy (trim t) = true -> clean (trim t).
Proof.
  intros H. split; [apply trim_idem|]. by apply truthy_nonempty.
Qed.

End StringFacts.


(** ** Field extraction and the validity of what is cached *)

Section Extraction.
Import Js Dom Scraper.

Ltac split_andb :=
  repeat match goal with
         | H : _ && _ = true |- _ => apply andb_prop in H as [? ?]
         end.

Lemma nameFromProfileLinks_clean (links : list Element) (name : string) :
  nameFromProfileLinks links = Some name -> clean name.
Proof.
  induction links as [|link rest IH]; simpl; [discriminate|].
  destruct (first (locatorAll link "span") textContent) as [[text|]|]; auto.
  destruct (plausibleSpanName text) eqn:Hp; auto.
  intros [= <-]. unfold plausibleSpanName in Hp. split_andb.
  by apply clean_trim.
Qed.

Lemma nameMethod2_clean (card : Element) (name : string) :
  nameMethod2 card = Some name -> clean name.
Proof.
  unfold nameMethod2.
  destruct (first (locatorAll card "text=/wrote a review/") _) as [[t|]|];
    simpl; try discriminate.
  destruct (truthy t && truthy (trim t)) eqn:Ht; simpl; [|discriminate].
  intros [= <-]. split_andb. by apply clean_trim.
Qed.

Lemma plausibleName_clean (shape : string -> bool) (text : string) :
  plausibleName shape text = true -> clean (trim text).
Proof.
  unfold plausibleName. intros H. split_andb. by apply clean_trim.
Qed.

Lemma nameFromElements_clean (elements : list Element) (name : string) :
  nameFromElements elements = Some name -> clean name.
Proof.
  induction elements as [|element rest IH]; simpl; [discriminate|].
  destruct (bind (waitFor element) _) as [[text|]|]; auto.
  destruct (plausibleName startsWithLetter text) eqn:Hp; auto.
  intros [= <-]. by eapply plausibleName_clean.
Qed.

Lemma nameFromSelectors_clean (card : Element) (selectors : list string)
    (name : string) :
  nameFromSelectors card selectors = Some name -> clean name.
Proof.
  induction selectors as [|selector rest IH]; simpl; [discriminate|].
  destruct (locatorAll card selector) as [elements|]; auto.
  destruct (nameFromElements elements) eqn:He; auto.
  intros [= <-]. by eapply nameFromElements_clean.
Qed.

Lemma nameFromSpans_clean (spans : list Element) (name : string) :
  nameFromSpans spans = Some name -> clean name.
Proof.
  induction spans as [|span rest IH]; simpl; [discriminate|].
  destruct (textContent span) as [[text|]|]; auto.
  destruct (plausibleName startsCapitalized text) eqn:Hp; auto.
  intros [= <-]. by eapply plausibleName_clean.
Qed.

(** The reviewer name is never empty and carries no outer white space:
    every method returns a trimmed, non-empty text, and the default is
    "Anonymous". *)
Lemma extractReviewerName_clean (card : Element) :
  clean (extractReviewerName card).
Proof.
  unfold extractReviewerName.
  destruct (nameMethod1 card) eqn:H1.
  { unfold nameMethod1 in H1. destruct (locatorAll card profileLinks); [|discriminate].
    by eapply nameFromProfileLinks_clean. }
  destruct (nameMethod2 card) eqn:H2; [by eapply nameMethod2_clean|].
  destruct (nameFromSelectors card nameSelectors) eqn:H3;
    [by eapply nameFromSelectors_clean|].
  destruct (nameFallback card) eqn:H4.
  { unfold nameFallback in H4. destruct (locatorAll card "span"); [|discriminate].
    by eapply nameFromSpans_clean. }
  split; [reflexivity|discriminate].
Qed.

(** Title, body and date are returned trimmed. *)
Lemma firstAccepted_trimmed (accept : string -> bool) (card : Element)
    (selectors : list string) :
  trim (firstAccepted accept card selectors) = firstAccepted accept card selectors.
Proof.
  induction selectors as [|selector rest IH]; simpl; [reflexivity|].
  destruct (visibleText card selector) as [[text|]|]; auto.
  destruct (truthy text && accept text); auto using trim_idem.
Qed.

End Extraction.

Section CardProcessing.
Import Js Dom Scraper.

(** An entry of the cache after [addReview] is the review added or an
    entry it had before. *)
Lemma addReview_allValid (c : ReviewCache.CacheData) (r : Review) :
  allValid c -> validReview r -> allValid (ReviewCache.addReview c r).
Proof.
  intros Hc Hr k r'. unfold ReviewCache.addReview.
  destruct (truthy (id r)); [|by apply Hc]. simpl. unfold ReviewCache.assign.
  destruct (ReviewCache.own (ReviewCache.reviews c) !! id r) eqn:E;
    [|destruct (String.eqb (id r) "__proto__")]; simpl;
    try (rewrite lookup_insert; case_decide; [by intros [= <-]|]); by apply Hc.
Qed.

(** The three ways [processSingleReviewCard] ends: with an error or a card
    without the required fields, with a review found in the cache, or with
    a new review that it adds to the cache. *)
Lemma processSingleReviewCard_cases
    (cache : option ReviewCache.CacheData) (card : Element) (index : nat) :
  let out := processSingleReviewCard cache card index in
  out.1 = cache
  ∨ ∃ (c : ReviewCache.CacheData) (r : Review),
      cache = Some c
      ∧ out.1 = Some (ReviewCache.addReview c r)
      ∧ out.2 = ReviewCache.LReview r
      ∧ reviewerName r = trim (extractReviewerName card)
      ∧ reviewTitle r = trim (extractReviewTitle card)
      ∧ reviewText r = trim (extractReviewText card)
      ∧ extractReviewerName card ≠ ""
      ∧ (extractReviewTitle card ≠ "" ∨ extractReviewText card ≠ "")
      ∧ validReview r.
Proof.
  unfold processSingleReviewCard.
  destruct (reviewIdOf card index) as [reviewId|]; [|by left].
  destruct cache as [c|]; simpl.
  2:{ left. by destruct (_ && _). }
  destruct (ReviewCache.hasReview c reviewId); [by left|].
  destruct (truthy (extractReviewerName card)
            && (truthy (extractReviewText card) || truthy (extractReviewTitle card)))
    eqn:Hvalid; [|by left].
  right. apply andb_prop in Hvalid as [Hname Hbody].
  apply truthy_nonempty in Hname.
  assert (extractReviewTitle card ≠ "" ∨ extractReviewText card ≠ "") as Hsome.
  { apply orb_prop in Hbody as [H|H]; apply truthy_nonempty in H; auto. }
  eexists c, _. repeat split; simpl; try done.
  - destruct (extractReviewerName_clean card) as [-> _]. done.
  - unfold extractReviewTitle, extractReviewText in *.
    rewrite !firstAccepted_trimmed. done.
Qed.

(** C3. Whatever the card and the cache, [processSingleReviewCard] either
    leaves the cache as it was, or adds exactly the review it returns; that
    review carries the trimmed extracted fields, the extracted reviewer name
    is not empty and the extracted title or body is not empty, and so the
    review added has a non-empty [reviewerName] and a non-empty [reviewTitle]
    or [reviewText].  Hence a cache whose entries are all valid still is so
    after the card. *)
Theorem processSingleReviewCard_caches_only_valid
    (cache : option ReviewCache.CacheData) (card : Element) (index : nat) :
  let out := processSingleReviewCard cache card index in
  (out.1 = cache
   ∨ ∃ (c : ReviewCache.CacheData) (r : Review),
       cache = Some c
       ∧ out.1 = Some (ReviewCache.addReview c r)
       ∧ out.2 = ReviewCache.LReview r
       ∧ reviewerName r = trim (extractReviewerName card)
       ∧ reviewTitle r = trim (extractReviewTitle card)
       ∧ reviewText r = trim (extractReviewText card)
       ∧ extractReviewerName card ≠ ""
       ∧ (extractReviewTitle card ≠ "" ∨ extractReviewText card ≠ "")
       ∧ validReview r)
  ∧ ∀ c : ReviewCache.CacheData,
      cache = Some c -> allValid c -> ∃ c', out.1 = Some c' ∧ allValid c'.
Proof.
  intros out. pose proof (processSingleReviewCard_cases cache card index) as H.
  split; [exact H|]. intros c -> Hc.
  destruct H as [H|(c0 & r & [= <-] & H & _ & _ & _ & _ & _ & _ & Hr)];
    subst out; rewrite H; [by eauto|].
  eexists. split; [done|]. by apply addReview_allValid.
Qed.

End CardProcessing.

(** ** The cache as a map from review ids *)

Section CacheMerge.
Import Js ReviewCache.


Lemma storable_truthy (k : string) : storable k -> truthy k = true.
Proof. intros [H _]. by apply truthy_nonempty. Qed.

Lemma storable_not_proto (k : string) : storable k -> String.eqb k "__proto__" = false.
Proof.
  intros [_ H]. destruct (String.eqb k "__proto__") eqn:E; [|done].
  apply String.eqb_eq in E. subst k. discriminate H.
Qed.

Lemma hasReview_storable (c : CacheData) (k : string) :
  proto (reviews c) = None -> storable k ->
  hasReview c k = bool_decide (k ∈ dom (own (reviews c))).
Proof.
  intros Hp [_ Hk]. unfold hasReview, hasProperty. rewrite Hp, Hk.
  destruct (own (reviews c) !! k) eqn:E.
  - symmetry. apply bool_decide_eq_true. apply elem_of_dom. eauto.
  - symmetry. apply bool_decide_eq_false. by apply not_elem_of_dom.
Qed.

Lemma addReview_storable (c : CacheData) (r : Review) :
  storable (id r) ->
  own (reviews (addReview c r)) = <[id r := r]> (own (reviews c))
  ∧ proto (reviews (addReview c r)) = proto (reviews c).
Proof.
  intros Hs. unfold addReview. rewrite (storable_truthy _ Hs). simpl.
  unfold assign. rewrite (storable_not_proto _ Hs).
  by destruct (own (reviews c) !! id r).
Qed.

(** Merging storable reviews adds exactly their ids to the own keys. *)
Lemma addReviewsFrom_dom (rs : list Review) (c : CacheData) (n : nat) :
  proto (reviews c) = None ->
  Forall (fun r => storable (id r)) rs ->
  proto (reviews (addReviewsFrom c n rs).1) = None
  ∧ dom (own (reviews (addReviewsFrom c n rs).1))
    = dom (own (reviews c)) ∪ idsOf rs.
Proof.
  revert c n. induction rs as [|r rest IH]; intros c n Hp Hall; simpl.
  { split; [done|]. unfold idsOf. simpl. set_solver. }
  apply Forall_cons in Hall as [Hr Hrest].
  rewrite (storable_truthy _ Hr), (hasReview_storable _ _ Hp Hr). simpl.
  unfold idsOf. simpl. fold (idsOf rest).
  case_bool_decide as Hin; simpl.
  - destruct (IH c n Hp Hrest) as [IHp IHd]. split; [done|].
    rewrite IHd. set_solver.
  - destruct (addReview_storable c r Hr) as [Hown Hproto].
    destruct (IH (addReview c r) (S n)) as [IHp IHd]; [congruence|done|].
    split; [done|]. rewrite IHd, Hown, dom_insert_L. set_solver.
Qed.

(** The same for a run of [addReview] calls. *)
Lemma foldl_addReview_dom (rs : list Review) (c : CacheData) :
  proto (reviews c) = None ->
  Forall (fun r => storable (id r)) rs ->
  proto (reviews (foldl addReview c rs)) = None
  ∧ dom (own (reviews (foldl addReview c rs)))
    = dom (own (reviews c)) ∪ idsOf rs.
Proof.
  revert c. induction rs as [|r rest IH]; intros c Hp Hall; simpl.
  { split; [done|]. unfold idsOf. simpl. set_solver. }
  apply Forall_cons in Hall as [Hr Hrest].
  destruct (addReview_storable c r Hr) as [Hown Hproto].
  destruct (IH (addReview c r)) as [IHp IHd]; [congruence|done|].
  split; [done|]. rewrite IHd, Hown, dom_insert_L.
  unfold idsOf. simpl. set_solver.
Qed.

(** C4, as amended.  Two sequences of reviews whose ids are storable, merged
    one after the other into a cache that starts empty, by [addReviews] or
    by [addReview] one review at a time, leave one entry for each id of
    either sequence: the keys of the cache are the union of the two identity
    sets, its review count is the size of that union, and no key occurs
    twice. *)
Theorem addReviews_count_is_union (now hotelUrl : string) (s1 s2 : list Review) :
  Forall (fun r => storable (id r)) s1 ->
  Forall (fun r => storable (id r)) s2 ->
  let c := addReviews (addReviews (fresh now hotelUrl) s1) s2 in
  let c' := foldl addReview (foldl addReview (fresh now hotelUrl) s1) s2 in
  dom (own (reviews c)) = idsOf s1 ∪ idsOf s2
  ∧ getCachedReviewCount c = size (idsOf s1 ∪ idsOf s2)
  ∧ getCachedReviewCount c' = size (idsOf s1 ∪ idsOf s2)
  ∧ NoDup (map_to_list (own (reviews c))).*1
  ∧ NoDup (map_to_list (own (reviews c'))).*1.
Proof.
  intros H1 H2 c c'.
  destruct (addReviewsFrom_dom s1 (fresh now hotelUrl) 0) as [Hp1 Hd1]; [done..|].
  destruct (addReviewsFrom_dom s2 (addReviews (fresh now hotelUrl) s1) 0)
    as [Hp2 Hd2]; [done..|].
  destruct (foldl_addReview_dom s1 (fresh now hotelUrl)) as [Hq1 He1]; [done..|].
  destruct (foldl_addReview_dom s2 (foldl addReview (fresh now hotelUrl) s1))
    as [Hq2 He2]; [done..|].
  assert (dom (own (reviews c)) = idsOf s1 ∪ idsOf s2) as Hdom.
  { subst c. unfold addReviews at 1. rewrite Hd2. unfold addReviews. rewrite Hd1.
    simpl. set_solver. }
  assert (dom (own (reviews c')) = idsOf s1 ∪ idsOf s2) as Hdom'.
  { subst c'. rewrite He2, He1. simpl. set_solver. }
  split; [done|]. unfold getCachedReviewCount.
  rewrite <- Hdom at 1. rewrite <- Hdom'. rewrite !size_dom.
  repeat split; try done; apply NoDup_fst_map_to_list.
Qed.

(** C10. A review whose [id] is the empty string leaves the cache as it
    was: the review map, the review count and the other fields. *)
Theorem addReview_empty_id_noop (c : CacheData) (review : Review) :
  id review = "" ->
  addReview c review = c
  ∧ getCachedReviewCount (addReview c review) = getCachedReviewCount c.
Proof.
  intros H. unfold addReview. rewrite H. simpl. done.
Qed.

End CacheMerge.

(** ** The session loop and the cap *)

Section SessionLoop.
Import Js Scraper.
Context {World : Type}.
Variable extractReviews : World -> World * list Review.
Variable navigateToNextPage : World -> World * bool.

Lemma underCap_positive (N : Z) (allReviews : list Review) :
  0 < N -> underCap (Some N) allReviews = (Z.of_nat (length allReviews) <? N).
Proof. intros H. simpl. destruct (Z.eqb_spec N 0); [lia|done]. Qed.

(** The [for] loop never takes the collection past a positive cap. *)
Lemma addPage_within_cap (N : Z) (pageReviews allReviews : list Review)
    (addedCount : nat) :
  0 < N -> Z.of_nat (length allReviews) <= N ->
  Z.of_nat (length (addPage (Some N) allReviews addedCount pageReviews).1) <= N.
Proof.
  intros HN. revert allReviews addedCount.
  induction pageReviews as [|review rest IH]; intros allReviews addedCount Hlen;
    [done|].
  cbn [addPage]. rewrite underCap_positive by done.
  destruct (Z.ltb_spec (Z.of_nat (length allReviews)) N); simpl; [|by apply IH].
  destruct (collected allReviews review); simpl; [by apply IH|].
  apply IH. rewrite length_app. simpl. lia.
Qed.

(** Once the cap is reached the rest of the page is passed over. *)
Lemma addPage_at_cap (N : Z) (pageReviews allReviews : list Review)
    (addedCount : nat) :
  0 < N -> N <= Z.of_nat (length allReviews) ->
  addPage (Some N) allReviews addedCount pageReviews = (allReviews, addedCount).
Proof.
  intros HN Hlen. induction pageReviews as [|review rest IH]; [done|].
  cbn [addPage]. rewrite underCap_positive by done.
  destruct (Z.ltb_spec (Z.of_nat (length allReviews)) N); [lia|]. simpl. exact IH.
Qed.

Lemma paginate_within_cap (N : Z) (fuel : nat) :
  0 < N ->
  forall (w : World) (allReviews : list Review) (currentPage : nat)
         (hasMorePages : bool),
    Z.of_nat (length allReviews) <= N ->
    Z.of_nat (length (collection
      (paginate extractReviews navigateToNextPage fuel (Some N) w allReviews
                currentPage hasMorePages))) <= N.
Proof.
  intros HN. induction fuel as [|fuel IH];
    intros w allReviews currentPage hasMorePages Hlen; cbn [paginate];
    destruct (hasMorePages && underCap (Some N) allReviews); try done.
  destruct (extractReviews w) as [w1 pageReviews].
  pose proof (addPage_within_cap N pageReviews allReviews 0 HN Hlen) as Hpage.
  destruct (addPage (Some N) allReviews 0 pageReviews) as [allReviews' addedCount].
  simpl in Hpage.
  destruct (capReached (Some N) allReviews'); [done|].
  destruct (navigateToNextPage w1) as [w2 more]. by apply IH.
Qed.

(** A session whose pagination reports no next page returns after its
    first page. *)
Lemma paginate_returns_without_next (maxReviews : option Z) (w : World) :
  (forall w1, (navigateToNextPage w1).2 = false) ->
  exists w' allReviews,
    extractAllReviewsWithPagination extractReviews navigateToNextPage 1
      maxReviews w = Returned w' allReviews.
Proof.
  intros Hnav. unfold extractAllReviewsWithPagination. cbn [paginate].
  destruct (true && underCap maxReviews []); [|eauto].
  destruct (extractReviews w) as [w1 pageReviews].
  destruct (addPage maxReviews [] 0 pageReviews) as [allReviews' addedCount].
  destruct (capReached maxReviews allReviews'); [eauto|].
  specialize (Hnav w1). destruct (navigateToNextPage w1) as [w2 more].
  simpl in Hnav. subst more. simpl. eauto.
Qed.

(** C1, as amended.  For a cap [N] of at least 1, a session never holds
    more than [N] reviews, after any number of page visits and whether it
    has returned or not; so the list it returns has at most [N] reviews.
    And a page met with [N] reviews already collected adds none. *)
Theorem extractAllReviewsWithPagination_cap (N : Z) (fuel : nat) (w : World) :
  0 < N ->
  Z.of_nat (length (collection
    (extractAllReviewsWithPagination extractReviews navigateToNextPage fuel
       (Some N) w))) <= N
  ∧ (forall (allReviews pageReviews : list Review) (addedCount : nat),
       N <= Z.of_nat (length allReviews) ->
       addPage (Some N) allReviews addedCount pageReviews
       = (allReviews, addedCount)).
Proof.
  intros HN. split.
  - apply paginate_within_cap; [exact HN|]. simpl. lia.
  - intros. by apply addPage_at_cap.
Qed.



End SessionLoop.


(** ** The session loop, navigation and rating at concrete inputs *)

Section AtSamples.
Import Js Dom Scraper Samples.

(** For C1: with the cap 0 a session returns all three reviews of the page,
    more than the cap. *)
Lemma cap_zero_is_no_cap :
  extractAllReviewsWithPagination threeReviews noNext 1 (Some 0) tt
  = Returned tt [sampleReview "r1"; sampleReview "r2"; sampleReview "r3"]
  ∧ 0 < Z.of_nat (length [sampleReview "r1"; sampleReview "r2"; sampleReview "r3"]).
Proof. split; [reflexivity|simpl; lia]. Qed.

(** For C1: with the cap 2 the same session returns two of the three
    reviews. *)
Lemma extractAllReviewsWithPagination_cap_witness :
  extractAllReviewsWithPagination threeReviews noNext 1 (Some 2) tt
  = Returned tt [sampleReview "r1"; sampleReview "r2"]
  ∧ Z.of_nat (length (collection
      (extractAllReviewsWithPagination threeReviews noNext 1 (Some 2) tt))) <= 2.
Proof.
  split; [reflexivity|].
  apply (extractAllReviewsWithPagination_cap threeReviews noNext 2 1 tt). lia.
Defined.

(** C2. On a listing whose next page always exists and whose pages never
    show a card, a session without a cap has not returned after any number
    of page visits: after [fuel] visits it is about to visit page [fuel]
    more.  The loop has no exit for a page that adds nothing. *)
Theorem stagnant_session_never_returns (fuel : nat) :
  extractAllReviewsWithPagination emptyPageOf alwaysNext fuel None 0%nat
  = Running fuel [].
Proof.
  unfold extractAllReviewsWithPagination.
  assert (forall (n w currentPage : nat),
            paginate emptyPageOf alwaysNext n None w [] currentPage true
            = Running (n + w)%nat []) as H.
  { induction n as [|n IH]; intros w currentPage; [done|].
    cbn [paginate]. simpl. rewrite IH. f_equal. lia. }
  rewrite H. f_equal. lia.
Qed.

(** C5. A page whose next-page arrow is visible, enabled and has an [href]
    makes [navigateToNextPage] return [true] whatever page the click leads
    to; for the blank page, on which no card selector matches anything, it
    returns [true] as well. *)
Theorem navigateToNextPage_ignores_destination (destination : Page) :
  navigateToNextPage (Some (pageLeadingTo destination)) = (Some destination, true)
  ∧ navigateToNextPage (Some (pageLeadingTo blankPage)) = (Some blankPage, true)
  ∧ findReviewCards (Some blankPage) = []
  ∧ count (pageLocatorAll blankPage "[data-reviewid]") = Ok 0%nat.
Proof. repeat split; reflexivity. Qed.

(** C9. A card whose rating icon is titled "10 of 10 bubbles" is given the
    rating 10: the number read from the title is returned as it is.  In the
    same way the title "0 of 5 bubbles" makes the first method win with the
    value 0. *)
Theorem extractRatingFromCard_out_of_range :
  extractRatingFromCard (cardWithBubbles "10 of 10 bubbles") = 10
  ∧ 5 < extractRatingFromCard (cardWithBubbles "10 of 10 bubbles")
  ∧ extractRatingFromCard (cardWithBubbles "0 of 5 bubbles") = 0
  ∧ ratingMethod1 (cardWithBubbles "0 of 5 bubbles") = Some 0.
Proof. repeat split; reflexivity. Qed.

(** The model at a card of the usual shape. *)
Example hotelCard_fields :
  extractReviewerName hotelCard = "Maria K"
  ∧ extractRatingFromCard hotelCard = 5
  ∧ extractReviewTitle hotelCard = "Wonderful weekend"
  ∧ extractReviewText hotelCard
    = "The room was spotless and the staff went out of their way."
  ∧ extractReviewDate hotelCard = ""
  ∧ reviewIdOf hotelCard 1 = Ok "930114571".
Proof. repeat split; reflexivity. Qed.

Example hotelCard_cached :
  ReviewCache.getCachedReviewCount (ReviewCache.fresh "t" "u") = 0%nat
  ∧ match processSingleReviewCard (Some (ReviewCache.fresh "t" "u")) hotelCard 1 with
    | (Some c, ReviewCache.LReview r) =>
        ReviewCache.getCachedReviewCount c = 1%nat
        ∧ ReviewCache.getReview c "930114571" = ReviewCache.LReview r
        ∧ reviewerName r = "Maria K" ∧ rating r = 5
    | _ => False
    end.
Proof. vm_compute. repeat split; reflexivity. Qed.

Example interface_words_are_no_names :
  extractReviewerName
    (node "" "span" [leaf "Sort"; leaf "June 2023"; leaf "Show more";
                     leaf " John Smith "; leaf "Zed"]) = "John Smith"
  ∧ extractReviewerName (node "" "span" [leaf "Sort"; leaf "June 2023"])
    = "Anonymous".
Proof. split; reflexivity. Qed.

Example generated_id :
  reviewIdOf (leaf "Great hotel, would visit again!") 3
  = Ok "generated_3_Great_hotel__would_v".
Proof. reflexivity. Qed.

Example rating_read_from_title :
  extractRatingFromCard (cardWithBubbles "4 of 5 bubbles") = 4
  ∧ extractRatingFromCard (cardWithBubbles "Rated 3 OF 5 Bubbles bubble") = 3
  ∧ extractRatingFromCard (cardWithBubbles "no rating") = 0.
Proof. repeat split; reflexivity. Qed.

End AtSamples.

(** ** The rating *)

Section Rating.
Import Js Dom Scraper.

Lemma parseDigits_nonneg (s : string) (acc : Z) :
  0 <= acc -> 0 <= parseDigits acc s.
Proof.
  revert acc. induction s as [|c s IH]; intros acc Hacc; simpl; [done|].
  destruct (isDigit c); [|done]. apply IH. lia.
Qed.

Lemma ratingOfTitle_nonneg (title : option string) (n : Z) :
  ratingOfTitle title = Some n -> 0 <= n.
Proof.
  unfold ratingOfTitle. destruct title as [t|]; [|done].
  destruct (truthy t && includes "bubble" t); [|done].
  destruct (matchBubble t); [|done]. intros [= <-]. by apply parseDigits_nonneg.
Qed.

Lemma ratingFromSvgs_nonneg (svgs : list Element) (n : Z) :
  ratingFromSvgs svgs = Some n -> 0 <= n.
Proof.
  induction svgs as [|svg rest IH]; simpl; [done|].
  destruct (strict (locatorAll svg "title") textContent) as [title|]; [|done].
  destruct (ratingOfTitle title) eqn:Ht; [|done].
  intros [= <-]. by eapply ratingOfTitle_nonneg.
Qed.

Lemma ratingMethod2_nonneg (card : Element) (n : Z) :
  ratingMethod2 card = Some n -> 0 <= n.
Proof.
  unfold ratingMethod2.
  destruct (first (locatorAll card "svg[aria-labelledby]") _) as [ariaId|];
    simpl; [|done].
  destruct (truthy (orEmpty ariaId)); simpl; [|done].
  destruct (first (locatorAll card _) textContent) as [titleText|]; simpl; [|done].
  apply ratingOfTitle_nonneg.
Qed.

Lemma ratingMethod3_range (card : Element) (n : Z) :
  ratingMethod3 card = Some n -> 1 <= n <= 5.
Proof.
  unfold ratingMethod3.
  destruct (count (locatorAll card filledBubblePaths)) as [k|]; [|done].
  destruct (Nat.ltb 0 k && Nat.leb k 5) eqn:Hk; [|done].
  intros [= <-]. apply andb_prop in Hk as [H1 H2].
  apply Nat.ltb_lt in H1. apply Nat.leb_le in H2. lia.
Qed.

(** X16. The rating is never negative, and whenever neither of the two
    methods that read a title produces a value it is within 0..5: the count
    of filled bubbles when that is 1 to 5, else 0. *)
Lemma extractRatingFromCard_bounds (card : Element) :
  0 <= extractRatingFromCard card
  ∧ (ratingMethod1 card = None -> ratingMethod2 card = None ->
     extractRatingFromCard card <= 5).
Proof.
  unfold extractRatingFromCard.
  destruct (ratingMethod1 card) as [n1|] eqn:H1.
  { split; [|done]. unfold ratingMethod1 in H1.
    destruct (locatorAll card "svg"); [|done]. by eapply ratingFromSvgs_nonneg. }
  destruct (ratingMethod2 card) as [n2|] eqn:H2.
  { split; [|done]. by eapply ratingMethod2_nonneg. }
  destruct (ratingMethod3 card) as [n3|] eqn:H3; [|lia].
  apply ratingMethod3_range in H3. lia.
Qed.

End Rating.

(** ** Locating the cards *)

Section CardLocator.
Import Js Dom Scraper Samples.


Lemma individualReviews_find (card : Element) (inner : list string) :
  individualReviews card inner
  = match find (severalInside card) inner with
    | Some innerSelector => matchesInside card innerSelector
    | None => []
    end.
Proof.
  induction inner as [|s rest IH]; [done|].
  cbn [individualReviews find]. unfold severalInside at 1.
  destruct (locatorAll card s) as [innerCards|] eqn:Hq; [|exact IH].
  destruct (Nat.ltb 1 (length innerCards)); [|exact IH].
  unfold matchesInside. by rewrite Hq.
Qed.

Lemma container_cards (card : Element) :
  (let reviewCards := individualReviews card innerSelectors in
   if Nat.ltb 1 (length reviewCards) then reviewCards else [card])
  = match find (severalInside card) innerSelectors with
    | Some innerSelector => matchesInside card innerSelector
    | None => [card]
    end.
Proof.
  cbv zeta. rewrite individualReviews_find.
  destruct (find (severalInside card) innerSelectors) as [s|] eqn:Hfind; [|done].
  apply find_some in Hfind as [_ Hs]. unfold severalInside, matchesInside in *.
  destruct (locatorAll card s) as [innerCards|]; [|discriminate]. by rewrite Hs.
Qed.

Lemma locateReviewCards_skip (page : Page) (before rest : list string) :
  Forall (fun s => usable page s = false) before ->
  locateReviewCards page (before ++ rest) = locateReviewCards page rest.
Proof.
  induction 1 as [|s before Hs _ IH]; [done|]. simpl.
  unfold usable in Hs.
  destruct (pageLocatorAll page s) as [[|card [|card' cards]]|]; try done.
  by destruct (isContainer card).
Qed.

(** When no selector is usable no card is found. *)
Lemma locateReviewCards_none (page : Page) (selectors : list string) :
  Forall (fun s => usable page s = false) selectors ->
  locateReviewCards page selectors = [].
Proof.
  intros H. rewrite <- (app_nil_r selectors). by rewrite locateReviewCards_skip.
Qed.

(** C6, as amended.  The locator uses the first selector of its list that
    is usable: one whose query returns at least one match and whose single
    match, if it is single, can be tested for being the container.  If that
    match is the container, the cards are those of the first inner selector
    that finds more than one element in it, and the container itself when
    none does; otherwise the cards are the matches of the selector. *)
Theorem locateReviewCards_first_usable (page : Page)
    (before after : list string) (selector : string) (cards : list Element) :
  Forall (fun s => usable page s = false) before ->
  usable page selector = true ->
  pageLocatorAll page selector = Ok cards ->
  locateReviewCards page (before ++ selector :: after) = cardsFrom cards.
Proof.
  intros Hbefore Huse Hcards. rewrite locateReviewCards_skip by done.
  cbn [locateReviewCards]. unfold usable in Huse. rewrite Hcards in *.
  unfold cardsFrom.
  destruct cards as [|card [|card' cards]]; try done.
  destruct (isContainer card) as [[|]|]; try done.
  apply container_cards.
Qed.

(** For C6: the first selector, [[data-reviewid]], has exactly one match,
    nothing is found inside that match, and yet the cards returned are the
    two matches of the later selector [article]. *)
Lemma locator_skips_failed_probe :
  pageLocatorAll pageWithDetachedCard "[data-reviewid]" = Ok [detachedCard]
  ∧ Forall (fun inner => locatorAll detachedCard inner = Ok []) innerSelectors
  ∧ pageLocatorAll pageWithDetachedCard "article" = Ok [leaf "first"; leaf "second"]
  ∧ findReviewCards (Some pageWithDetachedCard) = [leaf "first"; leaf "second"]
  ∧ findReviewCards (Some pageWithDetachedCard) ≠ [detachedCard].
Proof.
  split; [reflexivity|]. split; [repeat constructor|].
  split; [reflexivity|]. split; [reflexivity|]. discriminate.
Qed.

(** For C6: on a page whose third selector finds the review container, the
    cards are the two reviews its second inner selector finds. *)
Lemma locateReviewCards_first_usable_witness :
  findReviewCards (Some pageWithContainer) = [leaf "first"; leaf "second"].
Proof.
  unfold findReviewCards.
  change reviewCardSelectors
    with (firstn 2 reviewCardSelectors
          ++ ".review-container" :: skipn 3 reviewCardSelectors).
  rewrite (locateReviewCards_first_usable pageWithContainer
             (firstn 2 reviewCardSelectors) (skipn 3 reviewCardSelectors)
             ".review-container" [reviewContainer]).
  - reflexivity.
  - repeat constructor.
  - reflexivity.
  - reflexivity.
Defined.

End CardLocator.

(** ** Batch mode *)

Section BatchResults.
Import Js Scraper Samples.
Context {World : Type}.
Variable scrapeReviews : World -> string -> option Z -> SessionRun World.
Variable now : World -> string.

(** What the loop has collected before stays in front of what it adds. *)
Lemma scrapeEach_pushed (urls : list string) (maxReviewsPerUrl : option Z) :
  ∀ (w : World) (allResults : list ScrapingResult),
    scrapeEach scrapeReviews now w allResults urls maxReviewsPerUrl
    = match scrapeEach scrapeReviews now w [] urls maxReviewsPerUrl with
      | BatchReturned w' added => BatchReturned w' (allResults ++ added)
      | BatchRunning w' added => BatchRunning w' (allResults ++ added)
      end.
Proof.
  induction urls as [|u rest IH]; intros w allResults; cbn [scrapeEach].
  { by rewrite app_nil_r. }
  destruct (scrapeReviews w u maxReviewsPerUrl) as [w1 [result|e]|w1];
    [| |by rewrite app_nil_r];
    rewrite (IH w1 (allResults ++ _)), (IH w1 ([] ++ _));
    destruct (scrapeEach scrapeReviews now w1 [] rest maxReviewsPerUrl);
    by rewrite <- app_assoc.
Qed.




(** X10. What a batch has pushed for its first URLs does not depend on the
    URLs that follow them: the results of a longer list start with the
    results of the shorter one. *)
Lemma scrapeMultipleUrls_prefix (us1 us2 : list string) (w : World)
    (maxReviewsPerUrl : option Z) :
  firstn (length us1)
    (pushed (scrapeMultipleUrls scrapeReviews now w (us1 ++ us2) maxReviewsPerUrl))
  = pushed (scrapeMultipleUrls scrapeReviews now w us1 maxReviewsPerUrl).
Proof.
  unfold scrapeMultipleUrls.
  revert w. induction us1 as [|u rest IH]; intros w; [done|].
  change ((u :: rest) ++ us2) with (u :: (rest ++ us2)). cbn [scrapeEach].
  destruct (scrapeReviews w u maxReviewsPerUrl) as [w1 outcome|w1]; [|done].
  specialize (IH w1).
  destruct outcome as [result|e];
    rewrite (scrapeEach_pushed (rest ++ us2)), (scrapeEach_pushed rest);
    destruct (scrapeEach scrapeReviews now w1 [] (rest ++ us2) maxReviewsPerUrl),
             (scrapeEach scrapeReviews now w1 [] rest maxReviewsPerUrl);
    simpl in *; by rewrite IH.
Qed.

End BatchResults.

Section BatchAtSamples.
Import Js Scraper Samples.



(** The entries of that batch. *)
Example batch_with_failed_navigation :
  scrapeMultipleUrls threeReviewsSession clock tt ["a"; "bad"; "c"] None
  = BatchReturned tt
      [ {| url := "a"; totalReviews := 3; scrapedReviews := 3;
           reviews := [sampleReview "r1"; sampleReview "r2"; sampleReview "r3"];
           scrapedAt := "t"; businessName := None; businessLocation := None;
           overallRating := None; error := None |};
        failedResult "bad" "t" (ErrorObj "net::ERR_NAME_NOT_RESOLVED");
        {| url := "c"; totalReviews := 3; scrapedReviews := 3;
           reviews := [sampleReview "r1"; sampleReview "r2"; sampleReview "r3"];
           scrapedAt := "t"; businessName := None; businessLocation := None;
           overallRating := None; error := None |} ].
Proof. reflexivity. Qed.

End BatchAtSamples.

(** ** The cache at concrete inputs *)

Section CacheAtSamples.
Import Js ReviewCache Samples.

(** For C4: two sequences that share the review without an id.  The union
    of their identity sets has three members, the cache two entries. *)
Lemma empty_id_not_counted :
  "" ∈ idsOf [sampleReview "a"; sampleReview ""]
  ∧ "" ∈ idsOf [sampleReview ""; sampleReview "b"]
  ∧ getCachedReviewCount
      (addReviews (addReviews (fresh "t" "u") [sampleReview "a"; sampleReview ""])
                  [sampleReview ""; sampleReview "b"]) = 2%nat
  ∧ size (idsOf [sampleReview "a"; sampleReview ""]
          ∪ idsOf [sampleReview ""; sampleReview "b"]) = 3%nat.
Proof.
  split; [unfold idsOf; simpl; set_solver|].
  split; [unfold idsOf; simpl; set_solver|].
  split; vm_compute; reflexivity.
Qed.

(** An id that names a member of [Object.prototype] is taken for cached by
    [addReviews] and never stored. *)
Lemma inherited_id_not_counted :
  hasReview (fresh "t" "u") "constructor" = true
  ∧ getCachedReviewCount
      (addReviews (fresh "t" "u") [sampleReview "constructor"]) = 0%nat.
Proof. split; vm_compute; reflexivity. Qed.

(** For C4: two sequences that share the id "b" leave three entries. *)
Lemma addReviews_count_is_union_witness :
  getCachedReviewCount
    (addReviews (addReviews (fresh "t" "u") [sampleReview "a"; sampleReview "b"])
                [sampleReview "b"; sampleReview "c"])
  = size (idsOf [sampleReview "a"; sampleReview "b"]
          ∪ idsOf [sampleReview "b"; sampleReview "c"]).
Proof.
  apply (addReviews_count_is_union "t" "u"
           [sampleReview "a"; sampleReview "b"]
           [sampleReview "b"; sampleReview "c"]);
    repeat constructor; discriminate.
Defined.

(** For C10: adding the review without an id to a cache of one review. *)
Lemma addReview_empty_id_noop_witness :
  addReview (addReview (fresh "t" "u") (sampleReview "a")) (sampleReview "")
  = addReview (fresh "t" "u") (sampleReview "a")
  ∧ getCachedReviewCount
      (addReview (addReview (fresh "t" "u") (sampleReview "a")) (sampleReview ""))
    = getCachedReviewCount (addReview (fresh "t" "u") (sampleReview "a")).
Proof.
  exact (addReview_empty_id_noop (addReview (fresh "t" "u") (sampleReview "a"))
           (sampleReview "") eq_refl).
Defined.

(** C7. When the cache file holds the JSON text [null], [loadCache] throws
    to its caller: [this.cache] is [null] when the [catch] block reads
    [this.cache.hotelUrl]. *)
Theorem loadCache_throws_on_null (now t0 hotelUrl : string) :
  loadCache now (initial t0 hotelUrl) (Content (Ok JNull))
  = Throw (typeError "null" "hotelUrl").
Proof. reflexivity. Qed.

(** A file that is missing leaves the cache as the constructor built
    it; a file that cannot be read, or whose text is no JSON, gives the
    empty cache for the same listing, stamped with the time of loading:
    neither case throws. *)
Lemma loadCache_fresh_start (now t0 hotelUrl : string) (e : Thrown) :
  loadCache now (initial t0 hotelUrl) Absent = Ok (initial t0 hotelUrl)
  ∧ loadCache now (initial t0 hotelUrl) (Unreadable e) = Ok (initial now hotelUrl)
  ∧ loadCache now (initial t0 hotelUrl) (Content (Throw e))
    = Ok (initial now hotelUrl).
Proof. repeat split; reflexivity. Qed.

(** X11. [loadCache] throws to its caller for no file but one whose text is
    the JSON [null]: a missing, unreadable or unparsable file, and every
    other JSON value, leave it with a cache. *)
Lemma loadCache_throws_only_on_null (now t0 hotelUrl : string)
    (file : CacheFile) (e : Thrown) :
  loadCache now (initial t0 hotelUrl) file = Throw e ->
  file = Content (Ok JNull) ∨ file = Content (Ok JUndefined).
Proof.
  destruct file as [| |[parsed|]]; try discriminate.
  destruct parsed; try discriminate; auto.
  simpl. destruct (find _ fields) as [[key value]|]; simpl;
    [destruct (keysLength value); simpl|]; try discriminate;
    unfold startFresh; simpl;
    destruct (find _ fields) as [[key' value']|]; discriminate.
Qed.

End CacheAtSamples.

(** * Further properties *)

(** ** The cache: lookups after insertions *)

Section CacheLookups.
Import Js ReviewCache.

Lemma reviewField_proto (r : Review) : reviewField r "__proto__" = None.
Proof. reflexivity. Qed.

Lemma addReview_found (c : CacheData) (r : Review) :
  truthy (id r) = true ->
  hasReview (addReview c r) (id r) = true
  ∧ getReview (addReview c r) (id r) = LReview r.
Proof.
  intros Hid.
  unfold hasReview, getReview, addReview. rewrite Hid. simpl.
  unfold assign, hasProperty, lookupOrNull.
  destruct (own (reviews c) !! id r) eqn:E; simpl.
  { rewrite lookup_insert_eq. done. }
  destruct (String.eqb (id r) "__proto__") eqn:Ep; simpl.
  - apply String.eqb_eq in Ep. rewrite Ep in *. rewrite E, reviewField_proto.
    done.
  - rewrite lookup_insert_eq. done.
Qed.

(** X1. A review with a non-empty id is found under that id right after
    [addReview]: [hasReview] answers [true] and [getReview] returns the
    review just added, whatever the cache held before. *)
Theorem addReview_then_getReview (c : CacheData) (r : Review) :
  id r ≠ "" ->
  hasReview (addReview c r) (id r) = true
  ∧ getReview (addReview c r) (id r) = LReview r.
Proof. intros Hid. apply addReview_found. by apply truthy_nonempty. Qed.

(** X2. [addReview] of a review whose id is not "__proto__" changes the
    answer of [hasReview] and [getReview] for no other id. *)
Theorem addReview_other_ids (c : CacheData) (r : Review) (k : string) :
  id r ≠ "__proto__" -> k ≠ id r ->
  hasReview (addReview c r) k = hasReview c k
  ∧ getReview (addReview c r) k = getReview c k.
Proof.
  intros Hp Hk. unfold hasReview, getReview, addReview.
  destruct (truthy (id r)); [|done]. simpl.
  assert (String.eqb (id r) "__proto__" = false) as Ep.
  { by apply String.eqb_neq. }
  unfold assign, hasProperty, lookupOrNull. rewrite Ep.
  destruct (own (reviews c) !! id r); simpl; rewrite lookup_insert_ne; done.
Qed.

(** What [addReviews] does with a review it takes for new: a new own
    property, one more entry, the prototype untouched. *)
Lemma addReview_new (c : CacheData) (r : Review) :
  truthy (id r) = true -> hasReview c (id r) = false ->
  own (reviews c) !! id r = None
  ∧ own (reviews (addReview c r)) = <[id r := r]> (own (reviews c))
  ∧ proto (reviews (addReview c r)) = proto (reviews c)
  ∧ lastUpdated (addReview c r) = lastUpdated c
  ∧ hotelUrl (addReview c r) = hotelUrl c.
Proof.
  intros Hid Hnew. unfold hasReview, hasProperty in Hnew.
  destruct (own (reviews c) !! id r) eqn:E; [done|].
  assert (inherited (id r) = false) as Hinh.
  { destruct (proto (reviews c)); [destruct (reviewField _ _)|]; done. }
  assert (String.eqb (id r) "__proto__" = false) as Ep.
  { destruct (String.eqb (id r) "__proto__") eqn:Ep; [|done].
    apply String.eqb_eq in Ep. rewrite Ep in Hinh. discriminate. }
  unfold addReview, assign. rewrite Hid, E, Ep. done.
Qed.

Lemma hasReview_addReview_new (c : CacheData) (r : Review) (k : string) :
  truthy (id r) = true -> hasReview c (id r) = false ->
  hasReview c k = true -> hasReview (addReview c r) k = true.
Proof.
  intros Hid Hnew Hk.
  destruct (addReview_new c r Hid Hnew) as (_ & Hown & Hproto & _).
  unfold hasReview, hasProperty in *. rewrite Hown, Hproto.
  destruct (decide (id r = k)) as [->|Hne].
  - by rewrite lookup_insert_eq.
  - by rewrite lookup_insert_ne.
Qed.

Lemma addReviewsFrom_grows (rs : list Review) (c : CacheData) (n : nat) :
  (∀ (k : string) (r : Review),
     own (reviews c) !! k = Some r ->
     own (reviews (addReviewsFrom c n rs).1) !! k = Some r)
  ∧ (∀ k, hasReview c k = true -> hasReview (addReviewsFrom c n rs).1 k = true)
  ∧ (getCachedReviewCount (addReviewsFrom c n rs).1 + n
     = getCachedReviewCount c + (addReviewsFrom c n rs).2)%nat
  ∧ lastUpdated (addReviewsFrom c n rs).1 = lastUpdated c
  ∧ hotelUrl (addReviewsFrom c n rs).1 = hotelUrl c.
Proof.
  revert c n. induction rs as [|r rest IH]; intros c n; simpl; [done|].
  destruct (truthy (id r)) eqn:Hid; simpl; [|apply IH].
  destruct (hasReview c (id r)) eqn:Hnew; simpl; [apply IH|].
  destruct (addReview_new c r Hid Hnew) as (Hfree & Hown & Hproto & Hl & Hu).
  destruct (IH (addReview c r) (S n)) as (IHk & IHh & IHn & IHl & IHu).
  repeat split.
  - intros k r' Hk. apply IHk. rewrite Hown.
    rewrite lookup_insert_ne; [done|]. intros <-. congruence.
  - intros k Hk. apply IHh. by apply hasReview_addReview_new.
  - unfold getCachedReviewCount in *. rewrite Hown in IHn.
    rewrite map_size_insert_None in IHn by done. lia.
  - congruence.
  - congruence.
Qed.

(** X3. [addReviews] never replaces or removes an entry: every review the
    cache held is still held under its id.  The cache grows by exactly the
    number the function counts as new, and the listing's URL and the time
    stamp stay. *)
Theorem addReviews_only_adds (c : CacheData) (rs : list Review) :
  (∀ (k : string) (r : Review),
     own (reviews c) !! k = Some r -> own (reviews (addReviews c rs)) !! k = Some r)
  ∧ getCachedReviewCount (addReviews c rs)
    = (getCachedReviewCount c + (addReviewsFrom c 0 rs).2)%nat
  ∧ lastUpdated (addReviews c rs) = lastUpdated c
  ∧ hotelUrl (addReviews c rs) = hotelUrl c.
Proof.
  unfold addReviews.
  destruct (addReviewsFrom_grows rs c 0) as (Hk & _ & Hn & Hl & Hu).
  repeat split; try done. lia.
Qed.

Lemma addReviewsFrom_all_cached (rs : list Review) (c : CacheData) (n : nat) :
  Forall (fun r => truthy (id r) = true -> hasReview c (id r) = true) rs ->
  addReviewsFrom c n rs = (c, n).
Proof.
  induction 1 as [|r rest Hr _ IH]; simpl; [done|].
  destruct (truthy (id r)); simpl; [|exact IH]. by rewrite Hr.
Qed.

Lemma addReviewsFrom_caches_all (rs : list Review) (c : CacheData) (n : nat) :
  Forall (fun r => truthy (id r) = true ->
                   hasReview (addReviewsFrom c n rs).1 (id r) = true) rs.
Proof.
  revert c n. induction rs as [|r rest IH]; intros c n; simpl; [constructor|].
  destruct (truthy (id r)) eqn:Hid; simpl.
  2:{ constructor; [congruence|apply IH]. }
  destruct (hasReview c (id r)) eqn:Hnew; simpl.
  - constructor; [|apply IH]. intros _.
    by apply (addReviewsFrom_grows rest c n).
  - constructor; [|apply IH]. intros _.
    apply (addReviewsFrom_grows rest (addReview c r) (S n)).
    destruct (addReview_new c r Hid Hnew) as (_ & Hown & _).
    unfold hasReview, hasProperty. by rewrite Hown, lookup_insert_eq.
Qed.

(** X4. Merging the same reviews a second time changes nothing: the cache
    after [addReviews] twice is the cache after [addReviews] once, and the
    second run counts no review as new. *)
Theorem addReviews_idempotent (c : CacheData) (rs : list Review) :
  addReviews (addReviews c rs) rs = addReviews c rs
  ∧ (addReviewsFrom (addReviews c rs) 0 rs).2 = 0%nat.
Proof.
  unfold addReviews.
  rewrite (addReviewsFrom_all_cached rs _ 0) by apply addReviewsFrom_caches_all.
  done.
Qed.

(** X5. After [addReviews], [filterNewReviews] reports none of the merged
    reviews as new but those without an id, which [addReviews] never
    stores. *)
Theorem filterNewReviews_after_addReviews (c : CacheData) (rs : list Review) :
  Forall (fun r => id r = "") (filterNewReviews (addReviews c rs) rs).
Proof.
  apply Forall_forall. intros r Hr. unfold filterNewReviews in Hr.
  apply list_elem_of_filter in Hr as [Hnew Hin].
  pose proof (addReviewsFrom_caches_all rs c 0) as Hall.
  rewrite Forall_forall in Hall. specialize (Hall r Hin).
  destruct (id r) eqn:E; [done|]. fold (addReviews c rs) in Hall.
  rewrite <- E in *. rewrite Hall in Hnew; [done|]. by rewrite E.
Qed.

(** X6. For an id without an own entry, [hasReview] answers [true]
    exactly when the id names a member of [Object.prototype]
    ("constructor", "toString", "__proto__", ...) or, in a cache whose
    prototype a review stored under "__proto__" has replaced, a property
    of that review.  A member of [Object.prototype] counts as cached in
    every cache, so [addReviews] never stores a review under it. *)
Theorem addReviews_skips_inherited_names (c : CacheData) (rs : list Review)
    (k : string) :
  (own (reviews c) !! k = None ->
   hasReview c k
   = inherited k
     || match proto (reviews c) with
        | Some p => bool_decide (is_Some (reviewField p k))
        | None => false
        end)
  ∧ (inherited k = true ->
     hasReview c k = true
     ∧ own (reviews (addReviews c rs)) !! k = own (reviews c) !! k).
Proof.
  split.
  { intros Hown. unfold hasReview, hasProperty. rewrite Hown.
    destruct (proto (reviews c)) as [p|]; [|by rewrite orb_false_r].
    destruct (reviewField p k) as [b|].
    - rewrite bool_decide_eq_true_2 by eauto. by rewrite orb_true_r.
    - rewrite bool_decide_eq_false_2 by (by intros [? ?]). by rewrite orb_false_r. }
  intros Hk.
  assert (∀ c', hasReview c' k = true) as Hhas.
  { intros c'. unfold hasReview, hasProperty. rewrite Hk.
    destruct (own (reviews c') !! k); [done|].
    destruct (proto (reviews c')); [destruct (reviewField _ _)|]; done. }
  split; [done|]. unfold addReviews. generalize 0%nat.
  revert c. induction rs as [|r rest IH]; intros c n; simpl; [done|].
  destruct (truthy (id r)) eqn:Hid; simpl; [|apply IH].
  destruct (hasReview c (id r)) eqn:Hnew; simpl; [apply IH|].
  rewrite IH. destruct (addReview_new c r Hid Hnew) as (_ & -> & _).
  apply lookup_insert_ne. intros Heq. rewrite Heq, Hhas in Hnew. done.
Qed.

End CacheLookups.

(** ** The cache: the file of a listing *)

Section CacheFile.
Import Js ReviewCache.

Lemma allChars_app (p : ascii -> bool) (s t : string) :
  allChars p (s +:+ t) = allChars p s && allChars p t.
Proof. induction s as [|c s IH]; simpl; [done|]. by rewrite IH, andb_assoc. Qed.

Lemma allChars_impl (p q : ascii -> bool) (s : string) :
  (∀ c, p c = true -> q c = true) -> allChars p s = true -> allChars q s = true.
Proof.
  intros Hpq. induction s as [|c s IH]; simpl; [done|].
  intros [Hc Hs]%andb_prop. by rewrite (Hpq c Hc), IH.
Qed.

Lemma allChars_take (p : ascii -> bool) (n : nat) (s : string) :
  allChars p s = true -> allChars p (take n s) = true.
Proof.
  revert n. induction s as [|c s IH]; intros [|n]; simpl; try done.
  intros [Hc Hs]%andb_prop. by rewrite Hc, IH.
Qed.

Lemma length_take (n : nat) (s : string) : (String.length (take n s) <= n)%nat.
Proof.
  revert n. induction s as [|c s IH]; intros [|n]; simpl; try lia.
  specialize (IH n). lia.
Qed.

Lemma take_mapChars (f : ascii -> ascii) (n : nat) (s : string) :
  take n (mapChars f s) = mapChars f (take n s).
Proof.
  revert n. induction s as [|c s IH]; intros [|n]; simpl; try done.
  by rewrite IH.
Qed.

Lemma span_spec (p : ascii -> bool) (s : string) :
  allChars p (span p s).1 = true
  ∧ s = (span p s).1 +:+ (span p s).2
  ∧ match (span p s).2 with
    | String c _ => p c = false
    | EmptyString => True
    end.
Proof.
  induction s as [|c s (IH1 & IH2 & IH3)]; simpl; [done|].
  destruct (p c) eqn:Hc; [|by simpl].
  destruct (span p s) as [a b]. simpl in *. rewrite Hc, IH1. split; [done|].
  split; [by subst s|done].
Qed.

Lemma span_exact (p : ascii -> bool) (a b : string) :
  allChars p a = true ->
  match b with
  | String c _ => p c = false
  | EmptyString => True
  end ->
  span p (a +:+ b) = (a, b).
Proof.
  intros Ha Hb. induction a as [|c a IH]; simpl in *.
  - destruct b as [|c b]; [done|]. simpl. by rewrite Hb.
  - apply andb_prop in Ha as [Hc Ha]. by rewrite Hc, IH.
Qed.

Lemma hotelIdAt_digits (s g : string) :
  hotelIdAt s = Some g -> allChars isDigit g = true ∧ g ≠ "".
Proof.
  destruct s as [|c s]; simpl; [done|].
  destruct (Ascii.eqb c "d"); [|done].
  pose proof (span_spec isDigit s) as (Hd & _ & _).
  destruct (span isDigit s) as [digits rest]. simpl in Hd.
  destruct (truthy digits) eqn:Ht; [|done]. intros [= <-].
  split; [done|]. by apply truthy_nonempty.
Qed.

Lemma matchHotelId_digits (s g : string) :
  matchHotelId s = Some g -> allChars isDigit g = true ∧ g ≠ "".
Proof.
  induction s as [|c s IH]; cbn [matchHotelId].
  - simpl. done.
  - destruct (hotelIdAt (String c s)) eqn:E; [|exact IH].
    intros [= <-]. by eapply hotelIdAt_digits.
Qed.

Lemma no_slash (p : ascii -> bool) (s : string) :
  p "/"%char = false -> allChars p s = true -> includes "/" s = false.
Proof.
  intros Hp. induction s as [|c s IH]; [done|].
  cbn [allChars includes startsWith]. intros [Hc Hs]%andb_prop.
  destruct (Ascii.eqb "/" c) eqn:E.
  - apply Ascii.eqb_eq in E. subst c. congruence.
  - by apply IH.
Qed.

(** X7. The key [hashUrl] derives from a URL holds letters, digits and
    underscores only, whatever the URL; without a hotel number in the URL
    it has at most 20 characters.  So the name of the cache file holds no
    path separator: the file stays in the cache directory. *)
Theorem hashUrl_is_a_file_name (hotelUrl : string) :
  allChars nameChar (hashUrl hotelUrl) = true
  ∧ (matchHotelId hotelUrl = None -> (String.length (hashUrl hotelUrl) <= 20)%nat)
  ∧ includes "/" (cacheFileName hotelUrl) = false.
Proof.
  assert (allChars nameChar (hashUrl hotelUrl) = true) as Hkey.
  { unfold hashUrl. destruct (matchHotelId hotelUrl) as [g|] eqn:E.
    - apply matchHotelId_digits in E as [Hd _].
      eapply allChars_impl; [|exact Hd]. intros c Hc. unfold nameChar, isAlnum.
      rewrite Hc. by rewrite orb_true_r.
    - apply allChars_take. induction hotelUrl as [|c s IH]; simpl; [done|].
      rewrite andb_true_iff. split.
      + destruct (isAlnum c) eqn:Hc; [|reflexivity].
        unfold nameChar. by rewrite Hc.
      + apply IH. cbn [matchHotelId] in E.
        destruct (hotelIdAt (String c s)); [done|]. exact E. }
  split; [done|]. split.
  - intros E. unfold hashUrl. rewrite E. apply length_take.
  - apply (no_slash (fun c => nameChar c || Ascii.eqb c "."%char)); [done|].
    unfold cacheFileName. rewrite !allChars_app, andb_true_iff. split; [done|].
    rewrite andb_true_iff. split; [|done].
    eapply allChars_impl; [|exact Hkey]. intros c ->. done.
Qed.

Lemma matchHotelId_cons (c : ascii) (s : string) :
  matchHotelId (String c s)
  = match hotelIdAt (String c s) with
    | Some hotelId => Some hotelId
    | None => matchHotelId s
    end.
Proof. reflexivity. Qed.

Lemma matchHotelId_app (before digits after : string) :
  matchHotelId before = None ->
  allChars isDigit digits = true -> digits ≠ "" ->
  match after with
  | String c _ => isDigit c = false
  | EmptyString => True
  end ->
  matchHotelId (before +:+ String "d" (digits +:+ after)) = Some digits.
Proof.
  intros Hnone Hd Hne Hafter.
  induction before as [|c s IH].
  - change ("" +:+ String "d" (digits +:+ after))
      with (String "d" (digits +:+ after)).
    rewrite matchHotelId_cons. unfold hotelIdAt.
    change (Ascii.eqb "d" "d") with true. cbv iota.
    rewrite (span_exact isDigit digits after Hd Hafter).
    apply truthy_nonempty in Hne. by rewrite Hne.
  - change (String c s +:+ String "d" (digits +:+ after))
      with (String c (s +:+ String "d" (digits +:+ after))).
    rewrite matchHotelId_cons in Hnone |- *.
    destruct (hotelIdAt (String c s)) eqn:E; [done|].
    assert (hotelIdAt (String c (s +:+ String "d" (digits +:+ after))) = None) as ->.
    { unfold hotelIdAt in *. destruct (Ascii.eqb c "d"); [|done].
      destruct s as [|c' s]; [done|].
      change (String c' s +:+ String "d" (digits +:+ after))
        with (String c' (s +:+ String "d" (digits +:+ after))).
      cbn [span] in *. destruct (isDigit c') eqn:Hc'; [|done].
      destruct (span isDigit s) as [a b]. done. }
    by apply IH.
Qed.

(** X8. When the first [d] of a URL that a digit follows is followed by
    the digits [digits] and then by something else, the key of the cache is
    [digits]: it depends on nothing else in the URL, so the addresses of
    one listing share one cache file. *)
Theorem hashUrl_is_the_hotel_number (before digits after : string) :
  matchHotelId before = None ->
  allChars isDigit digits = true -> digits ≠ "" ->
  match after with
  | String c _ => isDigit c = false
  | EmptyString => True
  end ->
  hashUrl (before +:+ String "d" (digits +:+ after)) = digits.
Proof.
  intros. unfold hashUrl. by rewrite matchHotelId_app.
Qed.

(** X9. Without a hotel number the key is made of the first 20 characters
    of the URL alone: two such URLs that agree on these share one cache
    file. *)
Theorem hashUrl_reads_twenty_characters (url1 url2 : string) :
  matchHotelId url1 = None -> matchHotelId url2 = None ->
  take 20 url1 = take 20 url2 ->
  hashUrl url1 = hashUrl url2.
Proof.
  intros H1 H2 Heq. unfold hashUrl. rewrite H1, H2, !take_mapChars. by rewrite Heq.
Qed.

End CacheFile.

(** ** The cache: loading a damaged file *)

Section CacheReload.
Import Js ReviewCache Samples.

(** X12. When the file holds a JSON value other than [null] whose
    [reviews] member is missing or [null], the cache is reset to no reviews
    and its [hotelUrl] is read from that value: the URL the cache was
    created for is lost when the file names none. *)
Theorem loadCache_reset_reads_hotelUrl_from_file (now t0 hotelUrl : string)
    (parsed h : JsValue) :
  getProp parsed "reviews" = Ok JUndefined ∨ getProp parsed "reviews" = Ok JNull ->
  getProp parsed "hotelUrl" = Ok h ->
  loadCache now (initial t0 hotelUrl) (Content (Ok parsed))
  = Ok (JObject [("reviews", emptyObject); ("lastUpdated", JString now);
                 ("hotelUrl", h)]).
Proof.
  intros Hr Hh. unfold loadCache, startFresh.
  destruct Hr as [-> | ->]; simpl; by rewrite Hh.
Qed.

Lemma loadCache_reset_reads_hotelUrl_from_file_witness :
  loadCache "t1" (initial "t0" "https://www.tripadvisor.com/Hotel_Review-d1")
            (Content (Ok (JObject [("version", JNumber 2)])))
  = Ok (JObject [("reviews", emptyObject); ("lastUpdated", JString "t1");
                 ("hotelUrl", JUndefined)]).
Proof.
  apply (loadCache_reset_reads_hotelUrl_from_file "t1" "t0"
           "https://www.tripadvisor.com/Hotel_Review-d1"
           (JObject [("version", JNumber 2)]) JUndefined);
    [left; reflexivity | reflexivity].
Defined.

Lemma loadCache_throws_only_on_null_witness :
  Content (Ok JNull) = Content (Ok JNull)
  ∨ Content (Ok JNull) = Content (Ok JUndefined).
Proof.
  exact (loadCache_throws_only_on_null "t1" "t0" "u" (Content (Ok JNull))
           (typeError "null" "hotelUrl") eq_refl).
Defined.

Lemma addReview_then_getReview_witness :
  hasReview (addReview (fresh "t" "u") (sampleReview "930114571")) "930114571" = true
  ∧ getReview (addReview (fresh "t" "u") (sampleReview "930114571")) "930114571"
    = LReview (sampleReview "930114571").
Proof.
  apply (addReview_then_getReview (fresh "t" "u") (sampleReview "930114571")).
  discriminate.
Defined.

Lemma addReview_other_ids_witness :
  hasReview (addReview (fresh "t" "u") (sampleReview "r1")) "r2"
  = hasReview (fresh "t" "u") "r2"
  ∧ getReview (addReview (fresh "t" "u") (sampleReview "r1")) "r2"
    = getReview (fresh "t" "u") "r2".
Proof.
  apply (addReview_other_ids (fresh "t" "u") (sampleReview "r1") "r2");
    discriminate.
Defined.

Lemma hashUrl_is_the_hotel_number_witness :
  hashUrl "https://www.tripadvisor.com/Hotel_Review-g60763-d93450-Reviews-Inn.html"
  = "93450".
Proof.
  apply (hashUrl_is_the_hotel_number
           "https://www.tripadvisor.com/Hotel_Review-g60763-" "93450"
           "-Reviews-Inn.html"); [reflexivity|reflexivity|discriminate|reflexivity].
Defined.

Lemma hashUrl_reads_twenty_characters_witness :
  hashUrl "https://www.tripadvisor.com/Restaurants"
  = hashUrl "https://www.tripadvisor.co.uk/Attractions".
Proof.
  apply hashUrl_reads_twenty_characters; reflexivity.
Defined.

End CacheReload.

(** ** The fields of a card *)

Section Fields.
Import Js Dom Scraper Samples.

Lemma startsWith_app (sub a b : string) :
  startsWith sub a = true -> startsWith sub (a +:+ b) = true.
Proof.
  revert a. induction sub as [|x sub IH]; intros a; [by destruct a|].
  destruct a as [|y a]; [done|].
  change (String y a +:+ b) with (String y (a +:+ b)). cbn [startsWith].
  destruct (Ascii.eqb x y); [apply IH|done].
Qed.

Lemma includes_cons (sub : string) (c : ascii) (s : string) :
  includes sub s = true -> includes sub (String c s) = true.
Proof.
  intros H. cbn [includes]. rewrite H. by destruct (startsWith sub (String c s)).
Qed.

Lemma includes_app_l (sub a b : string) :
  includes sub a = true -> includes sub (a +:+ b) = true.
Proof.
  induction a as [|c a IH].
  - cbn [includes String.append]. destruct (startsWith sub "") eqn:E; [|done].
    intros _. destruct sub; [|done]. by destruct b.
  - change (String c a +:+ b) with (String c (a +:+ b)). cbn [includes].
    destruct (startsWith sub (String c a)) eqn:E.
    + intros _.
      change (String c (a +:+ b)) with (String c a +:+ b).
      by rewrite (startsWith_app _ _ b E).
    + intros H. rewrite (IH H).
      by destruct (startsWith sub (String c (a +:+ b))).
Qed.

Lemma includes_trimStart (sub s : string) :
  includes sub (trimStart s) = true -> includes sub s = true.
Proof.
  induction s as [|c s IH]; [done|]. cbn [trimStart].
  destruct (isSpace c); [|done]. intros H. apply includes_cons. by apply IH.
Qed.

Lemma trimEnd_prefix (s : string) : ∃ rest, s = trimEnd s +:+ rest.
Proof.
  induction s as [|c s [rest IH]]; [by exists ""|]. cbn [trimEnd].
  destruct (isSpace c && negb (truthy (trimEnd s))).
  - by exists (String c s).
  - exists rest.
    change (String c (trimEnd s) +:+ rest) with (String c (trimEnd s +:+ rest)).
    by rewrite <- IH.
Qed.

(** What [trim] keeps contains nothing that the text did not contain. *)
Lemma includes_trim (sub s : string) :
  includes sub s = false -> includes sub (trim s) = false.
Proof.
  intros H. destruct (includes sub (trim s)) eqn:E; [|done].
  unfold trim in E. destruct (trimEnd_prefix (trimStart s)) as [rest Hrest].
  apply (includes_app_l _ _ rest) in E. rewrite <- Hrest in E.
  apply includes_trimStart in E. congruence.
Qed.

(** The text a selector loop returns: nothing, or the trimmed text of an
    element that passed the test. *)
Lemma firstAccepted_spec (accept : string -> bool) (card : Element)
    (selectors : list string) :
  firstAccepted accept card selectors = ""
  ∨ ∃ text, firstAccepted accept card selectors = trim text
            ∧ truthy text = true ∧ accept text = true.
Proof.
  induction selectors as [|selector rest IH]; simpl; [by left|].
  destruct (visibleText card selector) as [[text|]|]; try exact IH.
  destruct (truthy text && accept text) eqn:E; [|exact IH].
  apply andb_prop in E as [Ht Ha]. right. by exists text.
Qed.

(** X13. The reviewer name is never the empty string and carries no white
    space at either end: every method returns a trimmed, non-empty text and
    the default is "Anonymous". *)
Theorem extractReviewerName_never_empty (card : Element) :
  extractReviewerName card ≠ ""
  ∧ trim (extractReviewerName card) = extractReviewerName card
  ∧ truthy (extractReviewerName card) = true.
Proof.
  destruct (extractReviewerName_clean card) as [Ht Hne].
  repeat split; try done. by apply truthy_nonempty.
Qed.

(** X14. A title is the empty string or a trimmed text of 6 to 199
    characters; a body is the empty string or a trimmed text of more than
    20 characters. *)
Theorem title_and_body_lengths (card : Element) :
  (extractReviewTitle card = ""
   ∨ (trim (extractReviewTitle card) = extractReviewTitle card
      ∧ 5 < String.length (extractReviewTitle card) < 200)%nat)
  ∧ (extractReviewText card = ""
     ∨ (trim (extractReviewText card) = extractReviewText card
        ∧ 20 < String.length (extractReviewText card))%nat).
Proof.
  unfold extractReviewTitle, extractReviewText. split.
  - destruct (firstAccepted_spec
                (fun text => Nat.ltb 5 (String.length (trim text))
                             && Nat.ltb (String.length (trim text)) 200)
                card titleSelectors) as [->|(text & -> & _ & Ha)]; [by left|].
    right. apply andb_prop in Ha as [H1 H2].
    apply Nat.ltb_lt in H1. apply Nat.ltb_lt in H2.
    split; [apply trim_idem|lia].
  - destruct (firstAccepted_spec
                (fun text => Nat.ltb 20 (String.length (trim text)))
                card textSelectors) as [->|(text & -> & _ & Ha)]; [by left|].
    right. apply Nat.ltb_lt in Ha. split; [apply trim_idem|done].
Qed.

(** X15. A date is the empty string, or a trimmed, non-empty text in which
    neither "contributions" nor "helpful votes" occurs. *)
Theorem extractReviewDate_guarded (card : Element) :
  extractReviewDate card = ""
  ∨ (trim (extractReviewDate card) = extractReviewDate card
     ∧ extractReviewDate card ≠ ""
     ∧ includes "contributions" (extractReviewDate card) = false
     ∧ includes "helpful votes" (extractReviewDate card) = false).
Proof.
  unfold extractReviewDate.
  destruct (firstAccepted_spec
              (fun text => truthy (trim text)
                           && negb (includes "contributions" text)
                           && negb (includes "helpful votes" text))
              card dateSelectors) as [->|(text & -> & _ & Ha)]; [by left|].
  right. apply andb_prop in Ha as [Ha H3]. apply andb_prop in Ha as [H1 H2].
  apply negb_true_iff in H2. apply negb_true_iff in H3.
  split; [apply trim_idem|]. split; [by apply truthy_nonempty|].
  split; by apply includes_trim.
Qed.

Lemma includes_nonempty (sub s : string) :
  sub ≠ "" -> includes sub s = true -> s ≠ "".
Proof. intros Hsub H ->. destruct sub; [done|]. discriminate H. Qed.

Lemma reviewIdOf_truthy (card : Element) (index : nat) (reviewId : string) :
  reviewIdOf card index = Ok reviewId -> truthy reviewId = true.
Proof.
  unfold reviewIdOf.
  destruct (getAttribute card "data-reviewid") as [a|]; simpl; [|done].
  destruct (truthy (orEmpty a)) eqn:Ha; [by intros [= <-]|].
  destruct (getAttribute card "id") as [b|]; simpl; [|done].
  destruct (includes "review" (orEmpty b)) eqn:Hb.
  { intros [= <-]. apply truthy_nonempty.
    by apply (includes_nonempty "review"). }
  destruct (textContent card) as [t|]; simpl; [|done]. by intros [= <-].
Qed.

(** X17. The id a card is given is never the empty string: it is the
    site's review id, an [id] attribute that contains "review", or a
    generated name. *)
Theorem reviewIdOf_never_empty (card : Element) (index : nat) (reviewId : string) :
  reviewIdOf card index = Ok reviewId -> reviewId ≠ "".
Proof. intros H. apply truthy_nonempty. by eapply reviewIdOf_truthy. Qed.

Lemma reviewIdOf_never_empty_witness :
  reviewIdOf hotelCard 1 = Ok "930114571" ∧ "930114571" ≠ "".
Proof.
  split; [reflexivity|].
  exact (reviewIdOf_never_empty hotelCard 1 "930114571" eq_refl).
Defined.

End Fields.

(** ** One card and the cache *)

Section CardAndCache.
Import Js Dom Scraper Samples.

(** X18. Processing a card a second time, on the cache the first time
    left, returns the same value and leaves that cache as it is: a review
    stored by the first pass is served from the cache by the second. *)
Theorem processSingleReviewCard_twice
    (cache : option ReviewCache.CacheData) (card : Element) (index : nat) :
  processSingleReviewCard (processSingleReviewCard cache card index).1 card index
  = processSingleReviewCard cache card index.
Proof.
  unfold processSingleReviewCard.
  destruct (reviewIdOf card index) as [reviewId|] eqn:Hid; [|done].
  apply reviewIdOf_truthy in Hid.
  destruct cache as [c|]; simpl.
  2:{ by destruct (_ && _). }
  destruct (ReviewCache.hasReview c reviewId) eqn:Hhas; simpl.
  { by rewrite Hhas. }
  destruct (truthy (extractReviewerName card)
            && (truthy (extractReviewText card) || truthy (extractReviewTitle card)))
    eqn:Hvalid; simpl.
  2:{ rewrite ?Hhas. simpl. by rewrite ?Hvalid. }
  match goal with
  | |- context [ReviewCache.addReview c ?r] =>
      destruct (addReview_found c r Hid) as [H1 H2]
  end.
  simpl in H1, H2. by rewrite H1, H2.
Qed.

(** Run without another card in between, the two halves are
    [processSingleReviewCard]. *)
Lemma processSingleReviewCard_halves
    (cache : option ReviewCache.CacheData) (card : Element) (index : nat) :
  processSingleReviewCard cache card index
  = match lookUpCard cache card index with
    | Answered value => (cache, value)
    | Extracting reviewId => extractAndStore cache card reviewId
    end.
Proof.
  unfold processSingleReviewCard, lookUpCard, extractAndStore.
  destruct (reviewIdOf card index) as [reviewId|]; [|done].
  by destruct cache as [c|]; [destruct (ReviewCache.hasReview c reviewId)|].
Qed.

(** X19. Whatever the other cards of the batch have stored in the
    meantime, the second half of [processSingleReviewCard] keeps every
    entry of the cache it meets but the one under the card's own id: that
    one is replaced by the card's review when the card yields one. *)
Theorem extractAndStore_keeps_other_entries
    (c : ReviewCache.CacheData) (card : Element) (reviewId : string) :
  ∃ c', (extractAndStore (Some c) card reviewId).1 = Some c'
    ∧ (∀ (k : string) (r : Review),
         ReviewCache.own (ReviewCache.reviews c) !! k = Some r ->
         k ≠ reviewId ->
         ReviewCache.own (ReviewCache.reviews c') !! k = Some r)
    ∧ (∀ stored review : Review,
         ReviewCache.own (ReviewCache.reviews c) !! reviewId = Some stored ->
         reviewId ≠ "" ->
         (extractAndStore (Some c) card reviewId).2 = ReviewCache.LReview review ->
         ReviewCache.own (ReviewCache.reviews c') !! reviewId = Some review).
Proof.
  unfold extractAndStore. destruct (_ && _); cbn [fst snd].
  2:{ exists c. repeat split; [done|]. by intros stored review _ _ [=]. }
  eexists. split; [done|].
  unfold ReviewCache.addReview. cbn [id]. split.
  - intros k r Hk Hne. destruct (truthy reviewId); [|done].
    cbn [ReviewCache.reviews]. unfold ReviewCache.assign.
    destruct (ReviewCache.own (ReviewCache.reviews c) !! reviewId);
      [|destruct (String.eqb reviewId "__proto__")]; cbn [ReviewCache.own];
      by rewrite ?lookup_insert_ne.
  - intros stored review Hstored Hne [= <-].
    apply truthy_nonempty in Hne. rewrite Hne.
    cbn [ReviewCache.reviews]. unfold ReviewCache.assign. rewrite Hstored.
    cbn [ReviewCache.own]. by rewrite lookup_insert_eq.
Qed.

(** Two cards with the id "930114571" in flight at once: [hotelCard] finds
    nothing in the cache; while its fields are read the other card stores
    its review; [hotelCard] then replaces that entry by its own. *)
Example second_card_replaces_first :
  lookUpCard (Some (ReviewCache.fresh "t" "u")) hotelCard 1
  = Extracting "930114571"
  ∧ ReviewCache.getReview
      (ReviewCache.addReview (ReviewCache.fresh "t" "u") (sampleReview "930114571"))
      "930114571"
    = ReviewCache.LReview (sampleReview "930114571")
  ∧ reviewerName (sampleReview "930114571") = "Ana"
  ∧ match extractAndStore
            (Some (ReviewCache.addReview (ReviewCache.fresh "t" "u")
                                         (sampleReview "930114571")))
            hotelCard "930114571" with
    | (Some c2, ReviewCache.LReview review) =>
        ReviewCache.getReview c2 "930114571" = ReviewCache.LReview review
        ∧ reviewerName review = "Maria K"
    | _ => False
    end.
Proof. vm_compute. repeat split; reflexivity. Qed.

End CardAndCache.

(** ** Cards found, pages turned *)

Section LocateAndNavigate.
Import Js Dom Scraper Samples.

(** X20. The locator returns no card exactly when none of the selectors
    is usable: when every query fails, matches nothing, or matches a single
    element that cannot be tested for being the container. *)
Theorem locateReviewCards_empty_iff (page : Page) (selectors : list string) :
  locateReviewCards page selectors = []
  ↔ Forall (fun s => usable page s = false) selectors.
Proof.
  split; [|apply locateReviewCards_none].
  induction selectors as [|s rest IH]; [constructor|].
  cbn [locateReviewCards]. intros H.
  assert (usable page s = false ∧ locateReviewCards page rest = []) as [Hs Hrest].
  { unfold usable.
    destruct (pageLocatorAll page s) as [[|card [|card' cards]]|]; try done.
    destruct (isContainer card) as [[|]|]; try done.
    cbv zeta in H.
    destruct (Nat.ltb 1 (length (individualReviews card innerSelectors))) eqn:E;
      [|done].
    rewrite H in E. done. }
  constructor; [done|by apply IH].
Qed.

Lemma clickFirstNext_outcome (selectors : list string) :
  ∀ page : Page,
    match clickFirstNext page selectors with
    | (page', true) =>
        ∃ (q : Page) (selector : string) (isDisabled href : option string),
          shownAfterRejections page q
          ∧ selector ∈ selectors
          ∧ firstVisible (pageLocatorAll q selector) = Ok true
          ∧ first (pageLocatorAll q selector)
                  (fun b => getAttribute b "disabled") = Ok isDisabled
          ∧ orEmpty isDisabled = ""
          ∧ first (pageLocatorAll q selector)
                  (fun b => getAttribute b "href") = Ok href
          ∧ orEmpty href ≠ ""
          ∧ clickNext q selector = Settled page'
    | (page', false) => shownAfterRejections page page'
    end.
Proof.
  induction selectors as [|s rest IH]; intros page; cbn [clickFirstNext];
    [constructor|].
  assert (match clickFirstNext page rest with
          | (page', true) =>
              ∃ (q : Page) (selector : string) (isDisabled href : option string),
                shownAfterRejections page q
                ∧ selector ∈ s :: rest
                ∧ firstVisible (pageLocatorAll q selector) = Ok true
                ∧ first (pageLocatorAll q selector)
                        (fun b => getAttribute b "disabled") = Ok isDisabled
                ∧ orEmpty isDisabled = ""
                ∧ first (pageLocatorAll q selector)
                        (fun b => getAttribute b "href") = Ok href
                ∧ orEmpty href ≠ ""
                ∧ clickNext q selector = Settled page'
          | (page', false) => shownAfterRejections page page'
          end) as Hrest.
  { specialize (IH page).
    destruct (clickFirstNext page rest) as [page' [|]]; [|done].
    destruct IH as (q & sel & d & h & Hq & Hin & H).
    exists q, sel, d, h. split; [done|]. split; [by right|done]. }
  destruct (firstVisible (pageLocatorAll page s)) as [[|]|] eqn:Hv; try done.
  destruct (first (pageLocatorAll page s) (fun b => getAttribute b "disabled"))
    as [d|] eqn:Hd; [|done].
  destruct (truthy (orEmpty d)) eqn:Htd; [done|].
  destruct (first (pageLocatorAll page s) (fun b => getAttribute b "href"))
    as [h|] eqn:Hh; [|done].
  destruct (truthy (orEmpty h)) eqn:Hth; [|done].
  destruct (clickNext page s) as [page'|e [later|]] eqn:Hc; [| |done].
  - exists page, s, d, h. repeat split; try done.
    + constructor.
    + by left.
    + by destruct (orEmpty d).
    + by apply truthy_nonempty.
  - specialize (IH later).
    destruct (clickFirstNext later rest) as [page' [|]].
    + destruct IH as (q & sel & d' & h' & Hq & Hin & H).
      exists q, sel, d', h'. split; [by eapply shown_later|].
      split; [by right|done].
    + by eapply shown_later.
Qed.

(** X21. [navigateToNextPage] answers [false] without a page.  With a page
    it answers [true] only after a click that settled, on the first match
    of one of its selectors, that match being visible, not disabled and
    having an [href] on the page the browser showed at that point.  That
    page, and the page left behind by the answer [false], is the page it
    was called on or one that rejected clicks have led to; so when no click
    on the page is rejected after it has gone through, the answer [false]
    leaves the page as it was. *)
Theorem navigateToNextPage_outcome (p : Page) :
  navigateToNextPage None = (None, false)
  ∧ match navigateToNextPage (Some p) with
    | (Some p', true) =>
        ∃ (q : Page) (selector : string) (isDisabled href : option string),
          shownAfterRejections p q
          ∧ selector ∈ nextPageSelectors
          ∧ firstVisible (pageLocatorAll q selector) = Ok true
          ∧ first (pageLocatorAll q selector)
                  (fun b => getAttribute b "disabled") = Ok isDisabled
          ∧ orEmpty isDisabled = ""
          ∧ first (pageLocatorAll q selector)
                  (fun b => getAttribute b "href") = Ok href
          ∧ orEmpty href ≠ ""
          ∧ clickNext q selector = Settled p'
    | (Some p', false) =>
        shownAfterRejections p p'
        ∧ ((∀ (selector : string) (e : Thrown) (q : Page),
              clickNext p selector ≠ Rejected e (Some q)) -> p' = p)
    | (None, _) => False
    end.
Proof.
  split; [done|]. unfold navigateToNextPage.
  pose proof (clickFirstNext_outcome nextPageSelectors p) as H.
  destruct (clickFirstNext p nextPageSelectors) as [p' [|]]; [done|].
  split; [done|]. intros Hstays.
  destruct H as [p|p q r selector e Hclick _]; [done|].
  by destruct (Hstays selector e q).
Qed.

(** A click that goes through while the network does not become idle in
    time: the answer is [false], and the browser is on the page the click
    led to. *)
Example rejected_click_leaves_another_page :
  navigateToNextPage (Some (pageLosingTo blankPage)) = (Some blankPage, false)
  ∧ shownAfterRejections (pageLosingTo blankPage) blankPage.
Proof.
  split; [reflexivity|].
  apply (shown_later _ blankPage _ "a" timeout); [reflexivity|apply shown_same].
Qed.

End LocateAndNavigate.

(** ** What a session collects *)

Section Collection.
Import Js Scraper.
Context {World : Type}.
Variable extractReviews : World -> World * list Review.
Variable navigateToNextPage : World -> World * bool.

Lemma collected_elem_of (allReviews : list Review) (review : Review) :
  collected allReviews review = true ↔ id review ∈ id <$> allReviews.
Proof.
  unfold collected. rewrite existsb_exists, list_elem_of_fmap. split.
  - intros (e & Hin & He). apply String.eqb_eq in He.
    exists e. split; [done|]. by apply list_elem_of_In.
  - intros (e & He & Hin). exists e. split; [by apply list_elem_of_In|].
    by apply String.eqb_eq.
Qed.

(** A page adds reviews of its own, with new ids, behind those collected. *)
Lemma addPage_spec (P : Review -> Prop) (maxReviews : option Z)
    (pageReviews allReviews : list Review) (addedCount : nat) :
  NoDup (id <$> allReviews) -> Forall P allReviews -> Forall P pageReviews ->
  NoDup (id <$> (addPage maxReviews allReviews addedCount pageReviews).1)
  ∧ Forall P (addPage maxReviews allReviews addedCount pageReviews).1
  ∧ ∃ new, (addPage maxReviews allReviews addedCount pageReviews).1
           = allReviews ++ new
           ∧ (addPage maxReviews allReviews addedCount pageReviews).2
             = (addedCount + length new)%nat.
Proof.
  revert allReviews addedCount.
  induction pageReviews as [|review rest IH]; intros allReviews addedCount Hnd Hall Hpage.
  { simpl. repeat split; try done. exists []. by rewrite app_nil_r, Nat.add_0_r. }
  apply Forall_cons in Hpage as [Hr Hrest]. cbn [addPage].
  destruct (underCap maxReviews allReviews && negb (collected allReviews review))
    eqn:E; [|by apply IH].
  apply andb_prop in E as [_ Hnew]. apply negb_true_iff in Hnew.
  destruct (IH (allReviews ++ [review]) (S addedCount)) as (H1 & H2 & new & H3 & H4).
  - rewrite fmap_app. apply NoDup_app. split; [done|]. split.
    + intros k Hk Hin. simpl in Hin. apply list_elem_of_singleton in Hin as ->.
      apply collected_elem_of in Hk. congruence.
    + apply NoDup_singleton.
  - apply Forall_app. split; [done|]. by constructor.
  - done.
  - repeat split; try done. exists (review :: new).
    rewrite H3, H4, <- app_assoc. simpl. split; [done|lia].
Qed.

Lemma paginate_collection (P : Review -> Prop) (maxReviews : option Z) :
  (∀ w, Forall P (extractReviews w).2) ->
  ∀ (fuel : nat) (w : World) (allReviews : list Review) (currentPage : nat)
    (hasMorePages : bool),
    NoDup (id <$> allReviews) -> Forall P allReviews ->
    NoDup (id <$> collection
             (paginate extractReviews navigateToNextPage fuel maxReviews w
                       allReviews currentPage hasMorePages))
    ∧ Forall P (collection
             (paginate extractReviews navigateToNextPage fuel maxReviews w
                       allReviews currentPage hasMorePages)).
Proof.
  intros Hpages. induction fuel as [|fuel IH];
    intros w allReviews currentPage hasMorePages Hnd Hall; cbn [paginate];
    destruct (hasMorePages && underCap maxReviews allReviews); try done.
  specialize (Hpages w). destruct (extractReviews w) as [w1 pageReviews].
  simpl in Hpages.
  destruct (addPage_spec P maxReviews pageReviews allReviews 0 Hnd Hall Hpages)
    as (H1 & H2 & _).
  destruct (addPage maxReviews allReviews 0 pageReviews) as [allReviews' addedCount].
  simpl in H1, H2.
  destruct (capReached maxReviews allReviews'); [done|].
  destruct (navigateToNextPage w1) as [w2 more]. by apply IH.
Qed.

(** X22. Whatever the cap and however many pages have been visited, the
    reviews a session holds have pairwise different ids, and each of them
    is a review that [extractReviews] returned for some page: whatever
    holds of every review of every page holds of every review collected. *)
Theorem extractAllReviewsWithPagination_collects_once (fuel : nat)
    (maxReviews : option Z) (w : World) :
  NoDup (id <$> collection
           (extractAllReviewsWithPagination extractReviews navigateToNextPage
              fuel maxReviews w))
  ∧ ∀ P : Review -> Prop,
      (∀ w', Forall P (extractReviews w').2) ->
      Forall P (collection
           (extractAllReviewsWithPagination extractReviews navigateToNextPage
              fuel maxReviews w)).
Proof.
  unfold extractAllReviewsWithPagination. split.
  - apply (paginate_collection (fun _ => True)); try done.
    + intros w'. by apply Forall_forall.
    + constructor.
  - intros P HP. apply (paginate_collection P); try done. constructor.
Qed.

End Collection.

(** ** A session on pages that bring new reviews *)

Section Progress.
Import Js Scraper Samples.
Variable pageAt : nat -> list Review.
Variable nextAt : nat -> bool.
Variable N : Z.
Hypothesis cap_positive : 0 < N.
Hypothesis pages_not_empty : ∀ i, pageAt i ≠ [].
Hypothesis pages_share_no_id :
  ∀ (i j : nat) (r r' : Review),
    r ∈ pageAt i -> r' ∈ pageAt j -> id r = id r' -> i = j.

Lemma paginate_progress (fuel : nat) :
  ∀ (i : nat) (allReviews : list Review) (currentPage : nat) (hasMorePages : bool),
    NoDup (id <$> allReviews) ->
    Forall (fun r => ∃ j, (j < i)%nat ∧ r ∈ pageAt j) allReviews ->
    (Z.to_nat N - length allReviews <= fuel)%nat ->
    ∃ w' result,
      paginate (pagesOf pageAt) (nextOf nextAt) fuel (Some N) i allReviews
               currentPage hasMorePages = Returned w' result.
Proof.
  induction fuel as [|fuel IH];
    intros i allReviews currentPage hasMorePages Hnd Hinv Hfuel; cbn [paginate];
    destruct (hasMorePages && underCap (Some N) allReviews) eqn:Hcond;
    try by eauto.
  - apply andb_prop in Hcond as [_ Hcap].
    rewrite underCap_positive in Hcap by done. apply Z.ltb_lt in Hcap. lia.
  - apply andb_prop in Hcond as [_ Hcap]. unfold pagesOf at 1.
    assert (Forall (fun r => ∃ j, (j < S i)%nat ∧ r ∈ pageAt j) (pageAt i)) as Hpage.
    { apply Forall_forall. intros r Hr. exists i. split; [lia|done]. }
    assert (Forall (fun r => ∃ j, (j < S i)%nat ∧ r ∈ pageAt j) allReviews) as Hinv'.
    { eapply Forall_impl; [exact Hinv|]. intros r (j & Hj & Hr). exists j.
      split; [lia|done]. }
    destruct (pageAt i) as [|r0 rest] eqn:Hpi; [by destruct (pages_not_empty i)|].
    assert (collected allReviews r0 = false) as Hnew.
    { destruct (collected allReviews r0) eqn:E; [|done].
      apply collected_elem_of, list_elem_of_fmap in E as (e & He & Hin).
      rewrite Forall_forall in Hinv. destruct (Hinv e Hin) as (j & Hj & Hej).
      assert (i = j); [|lia].
      apply (pages_share_no_id i j r0 e); [rewrite Hpi; by left|done|done]. }
    destruct (addPage_spec (fun r => ∃ j, (j < S i)%nat ∧ r ∈ pageAt j)
                (Some N) (r0 :: rest) allReviews 0 Hnd Hinv' Hpage)
      as (H1 & H2 & new & H3 & _).
    assert (length allReviews < length (addPage (Some N) allReviews 0 (r0 :: rest)).1)%nat
      as Hgrow.
    { cbn [addPage] in *. rewrite Hcap, Hnew in *. simpl in *.
      destruct (addPage_spec (fun _ => True) (Some N) rest (allReviews ++ [r0]) 1)
        as (_ & _ & new' & -> & _).
      - rewrite fmap_app. apply NoDup_app. split; [done|]. split.
        + intros k Hk Hin. simpl in Hin. apply list_elem_of_singleton in Hin as ->.
          apply collected_elem_of in Hk. congruence.
        + apply NoDup_singleton.
      - by apply Forall_forall.
      - by apply Forall_forall.
      - rewrite !length_app. simpl. lia. }
    destruct (addPage (Some N) allReviews 0 (r0 :: rest)) as [allReviews' addedCount].
    cbn [fst snd] in *.
    destruct (capReached (Some N) allReviews'); [by eauto|].
    unfold nextOf at 1. cbn [fst snd]. apply IH; [done|done|lia].
Qed.

(** X23. With a cap [N] of at least 1, on a listing whose pages are never
    empty and share no review id among them, a session returns within [N]
    page visits, whether or not a next page is always reported. *)
Theorem session_returns_on_fresh_pages :
  ∃ w' result,
    extractAllReviewsWithPagination (pagesOf pageAt) (nextOf nextAt)
      (Z.to_nat N) (Some N) 0%nat = Returned w' result.
Proof.
  unfold extractAllReviewsWithPagination.
  apply paginate_progress; [constructor|constructor|simpl; lia].
Qed.

End Progress.

Section ProgressAtSamples.
Import Js Scraper Samples.

Lemma session_returns_on_fresh_pages_witness :
  ∃ w' result,
    extractAllReviewsWithPagination (pagesOf onePerPage) (nextOf (fun _ => true))
      (Z.to_nat 3) (Some 3) 0%nat = Returned w' result.
Proof.
  apply (session_returns_on_fresh_pages onePerPage (fun _ => true) 3).
  - lia.
  - intros i. discriminate.
  - intros i j r r' Hr Hr' Hid. unfold onePerPage in *.
    apply list_elem_of_singleton in Hr as ->.
    apply list_elem_of_singleton in Hr' as ->.
    simpl in Hid. by apply (inj pretty).
Defined.

End ProgressAtSamples.

(** ** What a session returns *)

Section SessionResult.
Import Js Scraper Samples.
Context {World : Type}.
Variable newReviewCache : World -> string -> World * Fallible unit.
Variable goto : World -> string -> World * Fallible unit.
Variable settle : World -> World.
Variable extractReviews : World -> World * list Review.
Variable navigateToNextPage : World -> World * bool.
Variable saveCache : World -> World.
Variable getCachedReviewCount : World -> nat.
Variable now : World -> string.

(** X24. The result [scrapeReviews] returns is for the URL it was called
    with and carries no error; its [scrapedReviews] is the number of its
    reviews, which have distinct ids and are at most [maxReviews] many when
    that is positive; its [totalReviews] is read from the cache after the
    save; and the page was set. *)
Theorem scrapeReviews_result (fuel : nat) (hasPage : bool) (w : World)
    (target : string) (maxReviews : option Z) (w' : World)
    (result : ScrapingResult) :
  scrapeReviews newReviewCache goto settle extractReviews navigateToNextPage
    saveCache getCachedReviewCount now fuel hasPage w target maxReviews
    = SessionOver w' (Ok result) ->
  hasPage = true
  ∧ url result = target
  ∧ error result = None
  ∧ scrapedReviews result = length (reviews result)
  ∧ totalReviews result = getCachedReviewCount w'
  ∧ NoDup (id <$> reviews result)
  ∧ ∀ N, maxReviews = Some N -> 0 < N -> Z.of_nat (scrapedReviews result) <= N.
Proof.
  unfold scrapeReviews. destruct hasPage; simpl; [|discriminate].
  destruct (newReviewCache w target) as [w1 [[]|e]]; [|discriminate].
  destruct (goto w1 target) as [w2 [[]|e]]; [|discriminate].
  pose proof (paginate_collection extractReviews navigateToNextPage
                (fun _ => True) maxReviews
                (fun w0 => proj2 (Forall_forall _ _) (fun _ _ => I))
                fuel (settle w2) [] 1%nat true (NoDup_nil_2) (Forall_nil_2 _))
    as [Hnd _].
  assert (∀ N, maxReviews = Some N -> 0 < N ->
            Z.of_nat (length (collection
              (extractAllReviewsWithPagination extractReviews navigateToNextPage
                 fuel maxReviews (settle w2)))) <= N) as Hcap.
  { intros N -> HN. apply paginate_within_cap; [done|simpl; lia]. }
  unfold extractAllReviewsWithPagination in *.
  destruct (paginate extractReviews navigateToNextPage fuel maxReviews
              (settle w2) [] 1 true) as [w3 reviews|w3 reviews]; [|discriminate].
  intros [= <- <-]. simpl in *. repeat split; done.
Qed.

(** What [scrapeReviews] throws is its own error for a missing page, or
    what the constructor of the cache or the navigation has thrown. *)
Lemma scrapeReviews_throws (fuel : nat) (hasPage : bool) (w : World)
    (target : string) (maxReviews : option Z) (w' : World) (e : Thrown) :
  scrapeReviews newReviewCache goto settle extractReviews navigateToNextPage
    saveCache getCachedReviewCount now fuel hasPage w target maxReviews
    = SessionOver w' (Throw e) ->
  (hasPage = false ∧ e = notInitialized)
  ∨ newReviewCache w target = (w', Throw e)
  ∨ ∃ w1, goto w1 target = (w', Throw e).
Proof.
  unfold scrapeReviews. destruct hasPage; simpl; [|intros [= <- <-]; by left].
  destruct (newReviewCache w target) as [w1 [[]|e1]]; [|intros [= <- <-]; auto].
  destruct (goto w1 target) as [w2 [[]|e2]] eqn:Hgoto; [|intros [= <- <-]; eauto].
  by destruct (extractAllReviewsWithPagination _ _ _ _ _).
Qed.

End SessionResult.

Section SessionAtSamples.
Import Js Scraper Samples.

Lemma scrapeReviews_result_witness :
  scrapeReviews ready ready (fun w => w) threeReviews noNext (fun w => w)
    threeCached clock 1 true tt "u" None
  = SessionOver tt (Ok threeReviewsResult)
  ∧ true = true
  ∧ url threeReviewsResult = "u"
  ∧ error threeReviewsResult = None
  ∧ scrapedReviews threeReviewsResult = length (reviews threeReviewsResult)
  ∧ totalReviews threeReviewsResult = threeCached tt
  ∧ NoDup (id <$> reviews threeReviewsResult)
  ∧ ∀ N, None = Some N -> 0 < N ->
         Z.of_nat (scrapedReviews threeReviewsResult) <= N.
Proof.
  split; [reflexivity|].
  apply (scrapeReviews_result ready ready (fun w => w) threeReviews noNext
           (fun w => w) threeCached clock 1 true tt "u" None tt
           threeReviewsResult).
  reflexivity.
Defined.

End SessionAtSamples.

(** ** The batches of cards *)

Section Batches.
Import Scraper.
Context {A : Type}.
Variable reviewCards : list A.

Lemma batchStarts_concat (fuel : nat) :
  ∀ i, (length reviewCards - i <= fuel)%nat ->
    concat (map (fun i => slice i (i + concurrencyLimit) reviewCards)
                (batchStarts fuel i (length reviewCards)))
    = skipn i reviewCards.
Proof.
  induction fuel as [|fuel IH]; intros i Hfuel; cbn [batchStarts].
  { simpl. symmetry. apply skipn_all2. lia. }
  destruct (Nat.ltb_spec i (length reviewCards)) as [Hlt|Hge].
  - cbn [map concat]. rewrite IH by (unfold concurrencyLimit; lia).
    unfold slice. replace (i + concurrencyLimit - i)%nat with concurrencyLimit by lia.
    rewrite (Nat.add_comm i), <- skipn_skipn. apply firstn_skipn.
  - simpl. symmetry. by apply skipn_all2.
Qed.

Lemma batchStarts_sizes (fuel : nat) :
  ∀ i, Forall (fun b => (1 <= length b <= concurrencyLimit)%nat)
         (map (fun i => slice i (i + concurrencyLimit) reviewCards)
              (batchStarts fuel i (length reviewCards))).
Proof.
  induction fuel as [|fuel IH]; intros i; cbn [batchStarts]; [constructor|].
  destruct (Nat.ltb_spec i (length reviewCards)) as [Hlt|Hge]; [|constructor].
  cbn [map]. constructor; [|apply IH].
  unfold slice. rewrite length_firstn, length_skipn. unfold concurrencyLimit. lia.
Qed.

Lemma batchStarts_numbers (fuel : nat) :
  ∀ k, (length reviewCards - k * concurrencyLimit <= fuel)%nat ->
    map batchNumber (batchStarts fuel (k * concurrencyLimit) (length reviewCards))
    = seq (S k) (totalBatches reviewCards - k).
Proof.
  unfold totalBatches, concurrencyLimit.
  induction fuel as [|fuel IH]; intros k Hfuel; cbn [batchStarts].
  { replace ((length reviewCards + (10 - 1)) / 10 - k)%nat with 0%nat; [done|].
    pose proof (Nat.div_mod_eq (length reviewCards + (10 - 1)) 10).
    pose proof (Nat.mod_upper_bound (length reviewCards + (10 - 1)) 10). lia. }
  pose proof (Nat.div_mod_eq (length reviewCards + (10 - 1)) 10) as Hdiv.
  pose proof (Nat.mod_upper_bound (length reviewCards + (10 - 1)) 10) as Hmod.
  destruct (Nat.ltb_spec (k * 10) (length reviewCards)) as [Hlt|Hge].
  - cbn [map]. replace (k * 10 + concurrencyLimit)%nat with (S k * 10)%nat
      by (unfold concurrencyLimit; lia).
    rewrite IH by lia.
    replace ((length reviewCards + (10 - 1)) / 10 - k)%nat
      with (S ((length reviewCards + (10 - 1)) / 10 - S k))%nat by lia.
    cbn [seq]. f_equal. unfold batchNumber, concurrencyLimit.
    rewrite Nat.div_mul by done. lia.
  - replace ((length reviewCards + (10 - 1)) / 10 - k)%nat with 0%nat; [done|]. lia.
Qed.

(** X25. [processReviewCardsInParallel] takes the cards in batches that put
    one after the other are the cards in their order; every batch has
    between 1 and 10 cards; and the batches are numbered 1, 2, ... up to
    the total the progress line shows. *)
Theorem cardBatches_partition :
  concat (cardBatches reviewCards) = reviewCards
  ∧ Forall (fun b => (1 <= length b <= concurrencyLimit)%nat)
           (cardBatches reviewCards)
  ∧ map batchNumber (batchStarts (length reviewCards) 0 (length reviewCards))
    = seq 1 (totalBatches reviewCards).
Proof.
  unfold cardBatches. split; [|split].
  - by rewrite batchStarts_concat by lia.
  - apply batchStarts_sizes.
  - change 0%nat with (0 * concurrencyLimit)%nat at 1.
    rewrite (batchStarts_numbers (length reviewCards) 0) by lia.
    by rewrite Nat.sub_0_r.
Qed.

End Batches.

(** ** The URLs of the command line *)

Section CommandLine.
Import Js Main.

Lemma trimmedAndKept_spec (keep : string -> bool) (pieces : list string) :
  Forall (fun u => trim u = u ∧ keep u = true ∧ ∃ p, p ∈ pieces ∧ u = trim p)
         (trimmedAndKept keep pieces).
Proof.
  unfold trimmedAndKept. induction pieces as [|p pieces IH]; simpl; [constructor|].
  assert (Forall (fun u => trim u = u ∧ keep u = true
                           ∧ ∃ p0, p0 ∈ p :: pieces ∧ u = trim p0)
                 (List.filter keep (map trim pieces))) as Hrest.
  { eapply Forall_impl; [exact IH|]. intros u (H1 & H2 & q & Hq & ->).
    repeat split; try done. exists q. split; [by right|done]. }
  destruct (keep (trim p)) eqn:E; [|done].
  constructor; [|done]. split; [apply trim_idem|]. split; [done|].
  exists p. split; [by left|done].
Qed.

Lemma includes_one (sep c : ascii) (s : string) :
  includes (String sep "") (String c s)
  = Ascii.eqb sep c || includes (String sep "") s.
Proof.
  cbn [includes startsWith]. destruct (Ascii.eqb sep c); [|done].
  by destruct s.
Qed.

Lemma splitOn_no_sep (sep : ascii) (s : string) :
  Forall (fun p => includes (String sep "") p = false) (splitOn sep s).
Proof.
  induction s as [|c s IH]; cbn [splitOn]; [by repeat constructor|].
  destruct (Ascii.eqb c sep) eqn:E; [by constructor|].
  rewrite Ascii.eqb_sym in E.
  destruct (splitOn sep s) as [|piece pieces].
  - repeat constructor. by rewrite includes_one, E.
  - apply Forall_cons in IH as [Hp Hps]. constructor; [|done].
    by rewrite includes_one, E, Hp.
Qed.

(** The URLs of each kind of argument. *)
Lemma parseUrlInput_cases (readFile : string -> option (Fallible string))
    (input : string) :
  Forall (fun u => trim u = u) (parseUrlInput readFile input)
  ∧ (startsWith "file:" input = true ->
     Forall (fun u => u ≠ "" ∧ startsWith "#" u = false)
            (parseUrlInput readFile input))
  ∧ (startsWith "file:" input = false -> includes "," input = true ->
     Forall (fun u => u ≠ "" ∧ includes "," u = false)
            (parseUrlInput readFile input))
  ∧ (startsWith "file:" input = false -> includes "," input = false ->
     length (parseUrlInput readFile input) = 1%nat).
Proof.
  unfold parseUrlInput.
  destruct (startsWith "file:" input) eqn:Hfile;
    [|destruct (includes "," input) eqn:Hcomma].
  - assert (Forall (fun u => trim u = u ∧ u ≠ "" ∧ startsWith "#" u = false)
              match readFile (drop 5 input) with
              | Some (Ok fileContent) =>
                  trimmedAndKept
                    (fun line => truthy line && negb (startsWith "#" line))
                    (splitOn newline fileContent)
              | _ => []
              end) as H.
    { destruct (readFile (drop 5 input)) as [[fileContent|e]|]; try constructor.
      eapply Forall_impl; [apply trimmedAndKept_spec|].
      intros u (H1 & H2 & _). apply andb_prop in H2 as [H2 H3].
      apply truthy_nonempty in H2. apply negb_true_iff in H3. done. }
    split; [|split; [|split]]; [| |done|done].
    + eapply Forall_impl; [exact H|]. by intros u (? & ? & ?).
    + intros _. eapply Forall_impl; [exact H|]. by intros u (? & ? & ?).
  - split; [|split; [|split]]; try done.
    + eapply Forall_impl; [apply trimmedAndKept_spec|]. by intros u (? & ? & ?).
    + intros _ _. eapply Forall_impl; [apply trimmedAndKept_spec|].
      intros u (H1 & H2 & p & Hp & ->). split; [by apply truthy_nonempty|].
      apply includes_trim.
      pose proof (splitOn_no_sep comma input) as Hsplit.
      rewrite Forall_forall in Hsplit. by apply Hsplit.
  - split; [|split; [|split]]; try done.
    constructor; [apply trim_idem|constructor].
Qed.

(** X26. The URLs [parseUrlInput] returns are trimmed.  Those read from a
    file are not empty and do not start with a hash sign; those of a
    comma-separated argument are not empty and contain no comma; an
    argument of neither kind gives one URL, which may be empty. *)
Theorem parseUrlInput_entries (readFile : string -> option (Fallible string))
    (input : string) :
  Forall (fun u => trim u = u) (parseUrlInput readFile input)
  ∧ (startsWith "file:" input = true ->
     Forall (fun u => u ≠ "" ∧ startsWith "#" u = false)
            (parseUrlInput readFile input))
  ∧ (startsWith "file:" input = false -> includes "," input = true ->
     Forall (fun u => u ≠ "" ∧ includes "," u = false)
            (parseUrlInput readFile input))
  ∧ (startsWith "file:" input = false -> includes "," input = false ->
     length (parseUrlInput readFile input) = 1%nat).
Proof. apply parseUrlInput_cases. Qed.

(** X27. [main] starts a single session only when the argument gave exactly
    one URL and a batch only when it gave at least two; in both cases every
    URL is trimmed and contains [tripadvisor.].  It stops at the first URL
    without it, and prints the usage for no argument and for an empty one. *)
Theorem start_outcome (readFile : string -> option (Fallible string))
    (urlInput : option string) :
  match start readFile urlInput with
  | Usage => urlInput = None ∨ urlInput = Some ""
  | NoValidUrls => parseUrlInput readFile (orEmpty urlInput) = []
  | InvalidUrl u =>
      u ∈ parseUrlInput readFile (orEmpty urlInput)
      ∧ includes "tripadvisor." u = false
  | SingleUrl u =>
      parseUrlInput readFile (orEmpty urlInput) = [u]
      ∧ trim u = u ∧ includes "tripadvisor." u = true
  | BatchOfUrls urls =>
      parseUrlInput readFile (orEmpty urlInput) = urls
      ∧ (2 <= length urls)%nat
      ∧ Forall (fun u => trim u = u ∧ includes "tripadvisor." u = true) urls
  end.
Proof.
  unfold start.
  destruct (truthy (orEmpty urlInput)) eqn:Hin; cbn [negb].
  2:{ destruct urlInput as [[|c s]|]; simpl in Hin; [by right|done|by left]. }
  destruct (parseUrlInput_cases readFile (orEmpty urlInput)) as [Htrim _].
  destruct (parseUrlInput readFile (orEmpty urlInput)) as [|u1 urls] eqn:Hurls;
    [done|].
  destruct (find (fun url => negb (includes "tripadvisor." url)) (u1 :: urls))
    as [bad|] eqn:Hfind.
  - apply find_some in Hfind as [Hbad Hno]. apply negb_true_iff in Hno.
    split; [by apply list_elem_of_In|done].
  - assert (Forall (fun u => trim u = u ∧ includes "tripadvisor." u = true)
                   (u1 :: urls)) as Hall.
    { apply Forall_forall. intros u Hu. split.
      - rewrite Forall_forall in Htrim. by apply Htrim.
      - apply list_elem_of_In in Hu.
        pose proof (find_none _ _ Hfind u Hu) as Hu'. simpl in Hu'.
        by apply negb_false_iff in Hu'. }
    destruct urls as [|u2 urls].
    + apply Forall_cons in Hall as [[? ?] _]. done.
    + split; [done|]. split; [simpl; lia|done].
Qed.

Lemma splitOn_plain (sep : ascii) (u : string) :
  includes (String sep "") u = false -> splitOn sep u = [u].
Proof.
  induction u as [|c u IH]; [done|]. rewrite includes_one.
  intros H. apply orb_false_elim in H as [Hc Hu]. cbn [splitOn].
  rewrite Ascii.eqb_sym, Hc. by rewrite (IH Hu).
Qed.

Lemma splitOn_app (sep : ascii) (u rest : string) :
  includes (String sep "") u = false ->
  splitOn sep (u +:+ String sep rest) = u :: splitOn sep rest.
Proof.
  induction u as [|c u IH].
  - intros _. change ("" +:+ String sep rest) with (String sep rest).
    cbn [splitOn]. by rewrite Ascii.eqb_refl.
  - rewrite includes_one. intros H. apply orb_false_elim in H as [Hc Hu].
    change (String c u +:+ String sep rest) with (String c (u +:+ String sep rest)).
    cbn [splitOn]. rewrite Ascii.eqb_sym, Hc. by rewrite (IH Hu).
Qed.

Lemma splitOn_commaSeparated (urls : list string) :
  urls ≠ [] -> Forall (fun u => includes "," u = false) urls ->
  splitOn comma (commaSeparated urls) = urls.
Proof.
  induction urls as [|u urls IH]; [done|]. intros _ Hall.
  apply Forall_cons in Hall as [Hu Hrest]. destruct urls as [|u' urls].
  - by apply splitOn_plain.
  - change (commaSeparated (u :: u' :: urls))
      with (u +:+ String comma (commaSeparated (u' :: urls))).
    rewrite splitOn_app by done. f_equal. by apply IH.
Qed.

Lemma trimmedAndKept_clean (urls : list string) :
  Forall clean urls -> trimmedAndKept truthy urls = urls.
Proof.
  unfold trimmedAndKept. induction 1 as [|u urls [Htrim Hne] _ IH]; [done|].
  simpl. rewrite Htrim. apply truthy_nonempty in Hne. rewrite Hne.
  by rewrite IH.
Qed.

Lemma includes_app_r (sub a b : string) :
  includes sub b = true -> includes sub (a +:+ b) = true.
Proof.
  intros H. induction a as [|c a IH]; [done|].
  change (String c a +:+ b) with (String c (a +:+ b)). by apply includes_cons.
Qed.

(** X28. Two or more URLs that are trimmed, not empty and without a comma,
    written with commas between them, are read back as they were, in their
    order, unless the argument happens to start with [file:]. *)
Theorem parseUrlInput_commaSeparated (readFile : string -> option (Fallible string))
    (urls : list string) :
  (2 <= length urls)%nat ->
  Forall clean urls ->
  Forall (fun u => includes "," u = false) urls ->
  startsWith "file:" (commaSeparated urls) = false ->
  parseUrlInput readFile (commaSeparated urls) = urls.
Proof.
  intros Hlen Hclean Hcomma Hfile. unfold parseUrlInput. rewrite Hfile.
  assert (includes "," (commaSeparated urls) = true) as ->.
  { destruct urls as [|u [|u' urls]]; simpl in Hlen; try lia.
    change (commaSeparated (u :: u' :: urls))
      with (u +:+ String comma (commaSeparated (u' :: urls))).
    apply includes_app_r. by rewrite includes_one. }
  rewrite splitOn_commaSeparated; [by apply trimmedAndKept_clean| |done].
  intros ->. simpl in Hlen. lia.
Qed.

Lemma parseUrlInput_commaSeparated_witness :
  parseUrlInput (fun _ => None)
    (commaSeparated ["https://www.tripadvisor.com/Hotel_Review-d1";
                     "https://www.tripadvisor.com/Hotel_Review-d2"])
  = ["https://www.tripadvisor.com/Hotel_Review-d1";
     "https://www.tripadvisor.com/Hotel_Review-d2"].
Proof.
  apply (parseUrlInput_commaSeparated (fun _ => None)
           ["https://www.tripadvisor.com/Hotel_Review-d1";
            "https://www.tripadvisor.com/Hotel_Review-d2"]).
  - simpl. lia.
  - repeat constructor; discriminate.
  - repeat constructor.
  - reflexivity.
Defined.

End CommandLine.

(** ** The browser of a profile *)

Section Browser.
Import Js AdsPower.

(** X29. What [openBrowser] returns has an endpoint and a port that are not
    empty, and comes from an answer with the code 0; what it throws is the
    failure of the request itself or an error with a message. *)
Theorem openBrowser_outcome (response : Fallible ApiResponse) :
  match openBrowser response with
  | Ok (wsEndpoint, debugPort) =>
      wsEndpoint ≠ "" ∧ debugPort ≠ ""
      ∧ ∃ res browser, response = Ok res ∧ code res = 0
                       ∧ data res = Some browser
                       ∧ wsEndpoint = ws_puppeteer browser
  | Throw e =>
      response = Throw e ∨ ∃ message, e = ErrorObj message ∧ message ≠ ""
  end.
Proof.
  destruct response as [res|e]; [|by left]. unfold openBrowser. cbn [bind].
  destruct (Z.eqb_spec (code res) 0) as [Hcode|Hcode]; cbn [negb].
  - destruct (data res) as [browser|] eqn:Hdata; cbn [fmap option_fmap option_map orEmpty].
    + destruct (ws_puppeteer browser) as [|c ws] eqn:Hws; cbn [truthy negb].
      * right. by eexists.
      * split; [done|]. split.
        -- by destruct (debug_port browser).
        -- exists res, browser. by rewrite Hws.
    + right. by eexists.
  - right. destruct (msg res) as [[|c m]|]; by eexists.
Qed.

End Browser.

(** ** The figures of an export *)

Section Figures.
Import Js DataExporter.

Lemma filter_complement {A : Type} (p q : A -> bool) (l : list A) :
  (∀ x, q x = negb (p x)) ->
  (length (List.filter p l) + length (List.filter q l) = length l)%nat.
Proof.
  intros Hq. induction l as [|x l IH]; [done|]. simpl. rewrite Hq.
  destruct (p x); simpl; lia.
Qed.

(** In the [batchInfo] of an export every result is counted once, as
    successful or as failed: the two numbers add up to [totalUrls]. *)
Theorem batchInfo_counts_every_url (dataArray : list ScrapingResult) :
  let '(totalUrls, successfulUrls, failedUrls, _) := batchInfo dataArray in
  (successfulUrls + failedUrls = totalUrls)%nat
  ∧ totalUrls = length dataArray.
Proof.
  unfold batchInfo. split; [|done]. apply filter_complement.
  intros result. unfold succeeded. by rewrite negb_involutive.
Qed.

Lemma countRating_dom (distribution : gmap string nat) (review : Review) :
  dom (countRating distribution review) = dom distribution.
Proof.
  unfold countRating.
  destruct (distribution !! pretty (rating review)) as [n|] eqn:E; [|done].
  rewrite dom_insert_L. apply (elem_of_dom_2 (D := gset string)) in E. set_solver.
Qed.

Lemma countRating_lookup (distribution : gmap string nat) (review : Review)
    (k : Z) (n : nat) :
  distribution !! pretty k = Some n ->
  countRating distribution review !! pretty k
  = Some (if rating review =? k then S n else n).
Proof.
  intros Hk. unfold countRating. destruct (Z.eqb_spec (rating review) k) as [->|Hne].
  - rewrite Hk. by rewrite lookup_insert_eq.
  - destruct (distribution !! pretty (rating review)); [|done].
    rewrite lookup_insert_ne; [done|]. intros Heq. by apply (inj pretty) in Heq.
Qed.

Lemma fold_countRating (reviews : list Review) :
  ∀ (distribution : gmap string nat) (k : Z) (n : nat),
    distribution !! pretty k = Some n ->
    fold_left countRating reviews distribution !! pretty k
    = Some (Nat.add n (length (List.filter (fun r => rating r =? k) reviews)))
    ∧ dom (fold_left countRating reviews distribution) = dom distribution.
Proof.
  induction reviews as [|review reviews IH]; intros distribution k n Hk; simpl.
  { by rewrite Nat.add_0_r. }
  destruct (IH _ k _ (countRating_lookup distribution review k n Hk)) as [-> ->].
  split; [|apply countRating_dom]. f_equal.
  destruct (rating review =? k); simpl; lia.
Qed.

(** X30. [calculateRatingDistribution] gives, for each of the ratings 1 to
    5, the number of reviews with that rating, and has no other keys: a
    review rated otherwise is counted nowhere. *)
Theorem calculateRatingDistribution_counts (reviews : list Review) :
  dom (calculateRatingDistribution reviews) = dom noRatings
  ∧ ∀ k, 1 <= k <= 5 ->
      calculateRatingDistribution reviews !! pretty k
      = Some (length (List.filter (fun r => rating r =? k) reviews)).
Proof.
  unfold calculateRatingDistribution. split.
  - by destruct (fold_countRating reviews noRatings 1 0%nat eq_refl) as [_ ->].
  - intros k Hk.
    assert (noRatings !! pretty k = Some 0%nat) as H0.
    { assert (k = 1 ∨ k = 2 ∨ k = 3 ∨ k = 4 ∨ k = 5) as Hcases by lia.
      destruct Hcases as [->|[->|[->|[->| ->]]]]; reflexivity. }
    by destruct (fold_countRating reviews noRatings k 0%nat H0) as [-> _].
Qed.

End Figures.
